(** * Fee-Receipt-validator: the batch record-validation pipeline of [App.tsx]

    A shallow embedding of the pure and stateful parts of [src/App.tsx]:
    [normalizeHeader], [parseAndValidateCsv], [handleProcessData] and the
    [chartData] tally, followed by the properties of the specification that
    concern them.

    Character model.  A JavaScript string is embedded as a Rocq [string], one
    [ascii] per character.  The embedding is exact on ASCII text: the
    characters [trim] removes are tab, line feed, vertical tab, form feed,
    carriage return and space; [toLowerCase]/[toUpperCase] act on the letters
    [A-Z]/[a-z]; the regular-expression dot refuses line feed and carriage
    return.  Characters with a code above 127 are carried around unchanged
    (no case, not white space, not alphanumeric); the two status literals that
    contain such characters are compared byte by byte. *)

From Stdlib Require Import String Ascii List Bool Arith Lia DecimalString.
From stdpp Require Import gmap strings list fin_maps.
Import ListNotations.
Open Scope string_scope.
Open Scope nat_scope.

(** ** Characters *)

Module Char.

Definition code (c : ascii) : nat := nat_of_ascii c.

Definition between (lo hi : nat) (c : ascii) : bool :=
  (lo <=? code c) && (code c <=? hi).

Definition is_upper : ascii -> bool := between 65 90.
Definition is_lower : ascii -> bool := between 97 122.
Definition is_digit : ascii -> bool := between 48 57.

(** The complement of the class [[^a-zA-Z0-9]]. *)
Definition is_alnum (c : ascii) : bool :=
  is_lower c || is_upper c || is_digit c.

(** White space and line terminators, as removed by [String.prototype.trim]. *)
Definition is_ws (c : ascii) : bool :=
  between 9 13 c || (code c =? 32).

(** What the regular-expression [.] accepts: anything but a line terminator. *)
Definition dot (c : ascii) : bool :=
  negb ((code c =? 10) || (code c =? 13)).

Definition toLower (c : ascii) : ascii :=
  if is_upper c then ascii_of_nat (code c + 32) else c.

Definition toUpper (c : ascii) : ascii :=
  if is_lower c then ascii_of_nat (code c - 32) else c.

Definition quote : ascii := "034"%char.
Definition comma : ascii := ","%char.
Definition newline : ascii := "010"%char.

Definition is_quote (c : ascii) : bool := code c =? 34.
Definition is_comma (c : ascii) : bool := code c =? 44.
Definition is_newline (c : ascii) : bool := code c =? 10.

End Char.

(** ** String primitives of the JavaScript runtime *)

Module Str.

Definition dq : string := String Char.quote "".
Definition nl : string := String Char.newline "".

Fixpoint all (p : ascii -> bool) (s : string) : bool :=
  match s with
  | "" => true
  | String c s' => p c && all p s'
  end.

Fixpoint any (p : ascii -> bool) (s : string) : bool :=
  match s with
  | "" => false
  | String c s' => p c || any p s'
  end.

Fixpoint count (p : ascii -> bool) (s : string) : nat :=
  match s with
  | "" => 0
  | String c s' => (if p c then 1 else 0) + count p s'
  end.

Fixpoint map (f : ascii -> ascii) (s : string) : string :=
  match s with
  | "" => ""
  | String c s' => String (f c) (map f s')
  end.

(** [s.replace(/c/g, '')] for a one-character class [p]. *)
Fixpoint remove (p : ascii -> bool) (s : string) : string :=
  match s with
  | "" => ""
  | String c s' => if p c then remove p s' else String c (remove p s')
  end.

Definition is_empty (s : string) : bool :=
  match s with "" => true | _ => false end.

Fixpoint trimStart (s : string) : string :=
  match s with
  | "" => ""
  | String c s' => if Char.is_ws c then trimStart s' else s
  end.

Fixpoint trimEnd (s : string) : string :=
  match s with
  | "" => ""
  | String c s' =>
      let t := trimEnd s' in
      if Char.is_ws c && is_empty t then "" else String c t
  end.

(** [s.trim()] *)
Definition trim (s : string) : string := trimEnd (trimStart s).

(** [s.toLowerCase()] *)
Definition toLowerCase : string -> string := map Char.toLower.

(** Puts a character in front of the first piece of a split. *)
Definition cons_head (c : ascii) (pieces : list string) : list string :=
  match pieces with
  | f :: fs => String c f :: fs
  | [] => [String c ""]
  end.

(** [s.split(sep)] for a one-character separator: the empty string gives
    one empty piece. *)
Fixpoint split (sep : ascii -> bool) (s : string) : list string :=
  match s with
  | "" => [""]
  | String c s' =>
      if sep c then "" :: split sep s' else cons_head c (split sep s')
  end.

(** [hay.includes(needle)] *)
Fixpoint includes (needle hay : string) : bool :=
  String.prefix needle hay ||
  match hay with
  | "" => false
  | String _ hay' => includes needle hay'
  end.

(** [s.replace(c, d)] with a string pattern: only the first occurrence. *)
Fixpoint replace_first (c d : ascii) (s : string) : string :=
  match s with
  | "" => ""
  | String x s' =>
      if Ascii.eqb x c then String d s' else String x (replace_first c d s')
  end.

(** [xs.join(sep)] *)
Fixpoint join (sep : string) (xs : list string) : string :=
  match xs with
  | [] => ""
  | [x] => x
  | x :: rest => x +:+ sep +:+ join sep rest
  end.

(** JavaScript truthiness of a string value. *)
Definition truthy (s : string) : bool := negb (is_empty s).

End Str.

(** ** [normalizeHeader] (App.tsx, lines 22-27) *)

(** One match of [/[^a-zA-Z0-9]+(.)/] anchored at the head of [s]: the run is
    greedy, so a longer run is tried first and the matcher falls back to
    ending the run at the current character.  The result is the captured
    character and the text after the match. *)
Fixpoint match_sep (s : string) : option (ascii * string) :=
  match s with
  | "" => None
  | String c s' =>
      if Char.is_alnum c then None
      else
        match match_sep s' with
        | Some m => Some m
        | None =>
            match s' with
            | String d rest => if Char.dot d then Some (d, rest) else None
            | "" => None
            end
        end
  end.

(** [s.replace(/[^a-zA-Z0-9]+(.)/g, (_, chr) => chr.toUpperCase())]: matches
    are looked for from left to right, each one resuming after the previous
    match; [fuel] bounds the number of characters still to be scanned. *)
Fixpoint camel_replace (fuel : nat) (s : string) : string :=
  match fuel with
  | 0 => s
  | S fuel' =>
      match s with
      | "" => ""
      | String c s' =>
          match match_sep s with
          | Some (d, rest) => String (Char.toUpper d) (camel_replace fuel' rest)
          | None => String c (camel_replace fuel' s')
          end
      end
  end.

Definition normalizeHeader (header : string) : string :=
  let lowered := Str.toLowerCase (Str.trim header) in
  camel_replace (String.length lowered) lowered.

(** ** Data model (types.ts) *)

(** [CsvRow]: an object used as a map from column key to cell text. *)
Abbreviation CsvRow := (gmap string string).

Record StudentData := {
  sd_userId : string;
  sd_name : string;
  sd_amount : string;
  sd_campusName : string;
  sd_paymentDate : string;
  sd_utr : string
}.

Record ExtractedInformation := {
  Student_Name : string;
  Amount : string;
  Campus : string;
  Payment_Date : string;
  Transaction_Details : string;
  Reference_Number : string;
  Proof_Type : string;
  Logo_Present : bool;
  Stamp_Present : bool
}.

Record ValidationResponse := {
  Extracted_Information : ExtractedInformation;
  Validation_Status : string;
  Observations : string
}.

(** [ProcessingResult]: the optional members are absent ([None]) or set. *)
Record ProcessingResult := {
  originalData : CsvRow;
  validation : option ValidationResponse;
  error : option string;
  timestamp : string
}.

(** The three members of the union type of [Validation_Status]
    (types.ts, [ValidationResponse]). *)
Definition status_validated : string := "Receipt Validated".
Definition status_mismatch : string := "Mismatch Found".
Definition status_review : string := "Not Readable – Human Review Required".

(** ** [parseAndValidateCsv] (App.tsx, lines 29-63) *)

(** [obj[key] = value] on an object created by [{}]: an own property is
    created or overwritten, except that the inherited [__proto__] setter
    ignores a string and creates nothing. *)
Definition obj_set (key value : string) (obj : CsvRow) : CsvRow :=
  if decide (key = "__proto__") then obj else <[key := value]> obj.

(** [csvText.trim().split('\n')] *)
Definition csv_lines (csvText : string) : list string :=
  Str.split Char.is_newline (Str.trim csvText).

(** [line.split(re)] where [re] is a comma followed by the lookahead
    [(?=(?:(?:[^q]*q){2})*[^q]*$)], [q] being the double quote: a comma
    separates two fields when the text after it, up to the end of the line,
    holds an even number of quote characters. *)
Fixpoint split_fields (line : string) : list string :=
  match line with
  | "" => [""]
  | String c rest =>
      if Char.is_comma c && Nat.even (Str.count Char.is_quote rest)
      then "" :: split_fields rest
      else Str.cons_head c (split_fields rest)
  end.

(** [values[index]?.trim().replace(/q/g, '') || ''], [q] being the double
    quote; a missing element gives the empty string. *)
Definition field_value (v : option string) : string :=
  match v with
  | Some s => Str.remove Char.is_quote (Str.trim s)
  | None => ""
  end.

(** [headers.reduce((obj, header, index) => { obj[header] = ...; return obj }, {})],
    from position [index] on. *)
Fixpoint reduce_row (values : list string) (index : nat)
    (headers : list string) (obj : CsvRow) : CsvRow :=
  match headers with
  | [] => obj
  | header :: headers' =>
      reduce_row values (S index) headers'
        (obj_set header (field_value (values !! index)) obj)
  end.

Definition row_of_line (headers : list string) (line : string) : CsvRow :=
  reduce_row (split_fields line) 0 headers ∅.

(** [lines[0].split(',').map(h => normalizeHeader(h.replace(/q/g, '')))],
    [q] being the double quote. *)
Definition parse_headers (lines : list string) : list string :=
  List.map (fun h => normalizeHeader (Str.remove Char.is_quote h))
    (Str.split Char.is_comma (hd "" lines)).

(** [lines.slice(1).map(line => ...)] *)
Definition parse_data (lines : list string) : list CsvRow :=
  List.map (row_of_line (parse_headers lines)) (tl lines).

Definition requiredColumns : list string :=
  ["name"; "amount"; "utr"; "paymentDate"; "campusName"; "paymentScreenshotUrl"].

(** [obj.hasOwnProperty(col)]: the method is looked up on the object first, so
    a column whose key is [hasOwnProperty] shadows the inherited method with a
    string, and calling it throws a [TypeError] ([None]). *)
Definition hasOwnProperty (obj : CsvRow) (col : string) : option bool :=
  match obj !! "hasOwnProperty" with
  | Some _ => None
  | None => Some (bool_decide (is_Some (obj !! col)))
  end.

(** [xs.filter(p)] for a predicate that may throw. *)
Fixpoint filter_throwing {A} (p : A -> option bool) (xs : list A)
    : option (list A) :=
  match xs with
  | [] => Some []
  | x :: xs' =>
      match p x with
      | None => None
      | Some b =>
          match filter_throwing p xs' with
          | None => None
          | Some r => Some (if b then x :: r else r)
          end
      end
  end.

(** The ways [parseAndValidateCsv] can end. *)
Inductive ParseResult :=
| EmptyInputError
| EmptyResultError
| MissingColumnsError (missingColumns : list string)
| UncaughtTypeError
| Parsed (data : list CsvRow).

Definition parse_outcome (csvText : string) : ParseResult :=
  let lines := csv_lines csvText in
  if length lines <? 2 then EmptyInputError
  else
    let data := parse_data lines in
    match data with
    | [] => EmptyResultError
    | firstRow :: _ =>
        match filter_throwing
                (fun col => option_map negb (hasOwnProperty firstRow col))
                requiredColumns with
        | None => UncaughtTypeError
        | Some [] => Parsed data
        | Some missingColumns => MissingColumnsError missingColumns
        end
    end.

Definition empty_input_message : string :=
  "The fetched data is empty or invalid. Please check the Google Sheet.".
Definition empty_result_message : string :=
  "The file is empty or could not be parsed correctly.".
Definition missing_columns_message (missingColumns : list string) : string :=
  "The sheet is missing required columns: " +:+ Str.join ", " missingColumns
  +:+ ". Please correct the sheet and re-fetch.".

(** ** Component state and its setters *)

Record AppState := {
  processedData : list CsvRow;
  results : list ProcessingResult;
  isLoading : bool;
  appError : option string;
  progress : nat * nat
}.

(** One call of a [useState] setter. *)
Inductive Event :=
| SetError (e : option string)
| SetProcessedData (data : list CsvRow)
| SetResults (rs : list ProcessingResult)
| SetIsLoading (b : bool)
| SetProgress (current total : nat).

Definition apply_event (st : AppState) (e : Event) : AppState :=
  match e with
  | SetError msg =>
      {| processedData := processedData st; results := results st;
         isLoading := isLoading st; appError := msg; progress := progress st |}
  | SetProcessedData d =>
      {| processedData := d; results := results st;
         isLoading := isLoading st; appError := appError st;
         progress := progress st |}
  | SetResults rs =>
      {| processedData := processedData st; results := rs;
         isLoading := isLoading st; appError := appError st;
         progress := progress st |}
  | SetIsLoading b =>
      {| processedData := processedData st; results := results st;
         isLoading := b; appError := appError st; progress := progress st |}
  | SetProgress c t =>
      {| processedData := processedData st; results := results st;
         isLoading := isLoading st; appError := appError st;
         progress := (c, t) |}
  end.

Definition apply_events (st : AppState) (es : list Event) : AppState :=
  fold_left apply_event es st.

(** A thrown value: an [Error] with its message, or anything else. *)
Inductive Thrown :=
| JsError (message : string)
| NotAnError.

(** The setter calls of [parseAndValidateCsv]; the [TypeError] of a shadowed
    [hasOwnProperty] leaves the function before any setter is called. *)
Definition parseAndValidateCsv (type_error_message csvText : string)
    : Thrown + list Event :=
  match parse_outcome csvText with
  | EmptyInputError =>
      inr [SetError (Some empty_input_message); SetProcessedData []]
  | EmptyResultError =>
      inr [SetError (Some empty_result_message); SetProcessedData []]
  | MissingColumnsError missingColumns =>
      inr [SetError (Some (missing_columns_message missingColumns));
           SetProcessedData []]
  | UncaughtTypeError => inl (JsError type_error_message)
  | Parsed data => inr [SetProcessedData data]
  end.

(** ** [handleProcessData] (App.tsx, lines 108-170) *)

Definition no_data_message : string :=
  "No data to process. Please fetch data from a Google Sheet first.".
Definition missing_url_message : string :=
  Str.dq +:+ "paymentScreenshotUrl" +:+ Str.dq
  +:+ " is missing or empty for this row.".

(** [err instanceof Error ? err.message : 'An unknown error occurred.'] *)
Definition errorMessage_of (err : Thrown) : string :=
  match err with
  | JsError message => message
  | NotAnError => "An unknown error occurred."
  end.

Definition is_critical (index : nat) (errorMessage : string) : bool :=
  (index =? 0) && Str.includes "Invalid API Key" errorMessage.

Definition critical_banner (errorMessage : string) : string :=
  "Critical Error: " +:+ errorMessage
  +:+ " Processing has been stopped. Please check your application configuration.".
Definition critical_error (errorMessage : string) : string :=
  "Processing stopped due to critical error: " +:+ errorMessage.

(** [row.key || ''] *)
Definition field_or_empty (row : CsvRow) (key : string) : string :=
  default "" (row !! key).

Section Pipeline.

(** The outside world: the clock, the network and the classification
    service.  Each collaborator reads and advances the world; the two
    asynchronous ones either resolve or reject. *)
Variable World : Type.
Variable toISOString : World -> string * World.
Variable getBase64FromUrl :
  string -> World -> (Thrown + (string * string)) * World.
Variable validateReceipt :
  string -> string -> StudentData -> World ->
  (Thrown + ValidationResponse) * World.

(** [new Date().toISOString().replace('T', ' ').substring(0, 19)] *)
Definition now_timestamp (w : World) : string * World :=
  let '(iso, w') := toISOString w in
  (substring 0 19 (Str.replace_first "T" " " iso), w').

(** The [try] block of one iteration: the value of [validation], or what
    was thrown. *)
Definition try_row (row : CsvRow) (w : World)
    : (Thrown + ValidationResponse) * World :=
  match row !! "paymentScreenshotUrl" with
  | None => (inl (JsError missing_url_message), w)
  | Some url =>
      if negb (Str.truthy url) || Str.is_empty (Str.trim url)
      then (inl (JsError missing_url_message), w)
      else
        let '(fetched, w1) := getBase64FromUrl url w in
        match fetched with
        | inl err => (inl err, w1)
        | inr (base64, mimeType) =>
            let studentDataForApi :=
              {| sd_userId := field_or_empty row "userId";
                 sd_name := field_or_empty row "name";
                 sd_amount := field_or_empty row "amount";
                 sd_campusName := field_or_empty row "campusName";
                 sd_paymentDate := field_or_empty row "paymentDate";
                 sd_utr := field_or_empty row "utr" |} in
            validateReceipt base64 mimeType studentDataForApi w1
        end
  end.

(** The [for] loop from position [index] on, [rows] being the records still
    to be visited and [newResults] the local accumulator.  The result is the
    sequence of setter calls, in order, and the world left behind. *)
Fixpoint process_loop (total index : nat) (rows : list CsvRow)
    (newResults : list ProcessingResult) (w : World) : list Event * World :=
  match rows with
  | [] => ([SetIsLoading false], w)
  | row :: rows' =>
      let '(tried, w1) := try_row row w in
      match tried with
      | inr v =>
          let '(ts, w2) := now_timestamp w1 in
          let result :=
            {| originalData := row; validation := Some v; error := None;
               timestamp := ts |} in
          let '(events, w3) :=
            process_loop total (S index) rows' (newResults ++ [result]) w2 in
          (SetProgress (index + 1) total
             :: SetResults (newResults ++ [result]) :: events, w3)
      | inl err =>
          let errorMessage := errorMessage_of err in
          if is_critical index errorMessage then
            let '(ts, w2) := now_timestamp w1 in
            ([SetProgress (index + 1) total;
              SetError (Some (critical_banner errorMessage));
              SetIsLoading false;
              SetResults
                [{| originalData := row; validation := None;
                    error := Some (critical_error errorMessage);
                    timestamp := ts |}]], w2)
          else
            let '(ts, w2) := now_timestamp w1 in
            let result :=
              {| originalData := row; validation := None;
                 error := Some errorMessage; timestamp := ts |} in
            let '(events, w3) :=
              process_loop total (S index) rows' (newResults ++ [result]) w2 in
            (SetProgress (index + 1) total
               :: SetResults (newResults ++ [result]) :: events, w3)
      end
  end.

Definition handleProcessData (st : AppState) (w : World)
    : list Event * World :=
  match processedData st with
  | [] => ([SetError (Some no_data_message)], w)
  | rows =>
      let total := length rows in
      let '(events, w') := process_loop total 0 rows [] w in
      (SetIsLoading true :: SetError None :: SetResults []
         :: SetProgress 0 total :: events, w')
  end.

End Pipeline.

(** What an observer of the setter calls sees. *)
Definition progress_trace (events : list Event) : list (nat * nat) :=
  omap (fun e => match e with SetProgress c t => Some (c, t) | _ => None end)
    events.

Definition published (events : list Event) : list (list ProcessingResult) :=
  omap (fun e => match e with SetResults rs => Some rs | _ => None end) events.

(** ** [chartData] (App.tsx, lines 227-249) *)

Record Counts := {
  validated : nat;
  mismatch : nat;
  review : nat;
  errors : nat
}.

(** The third [case] label of the [switch], byte for byte as in App.tsx. *)
Definition case_review : string := "Not Readable â€“ Human Review Required".

(** The reducer: [if (res.error) ... else if (res.validation) switch ...]. *)
Definition count_result (acc : Counts) (res : ProcessingResult) : Counts :=
  if Str.truthy (default "" (error res)) then
    {| validated := validated acc; mismatch := mismatch acc;
       review := review acc; errors := S (errors acc) |}
  else
    match validation res with
    | Some v =>
        if String.eqb (Validation_Status v) "Receipt Validated" then
          {| validated := S (validated acc); mismatch := mismatch acc;
             review := review acc; errors := errors acc |}
        else if String.eqb (Validation_Status v) "Mismatch Found" then
          {| validated := validated acc; mismatch := S (mismatch acc);
             review := review acc; errors := errors acc |}
        else if String.eqb (Validation_Status v) case_review then
          {| validated := validated acc; mismatch := mismatch acc;
             review := S (review acc); errors := errors acc |}
        else acc
    | None => acc
    end.

Definition tally (rs : list ProcessingResult) : Counts :=
  fold_left count_result rs
    {| validated := 0; mismatch := 0; review := 0; errors := 0 |}.

Record ChartItem := {
  item_name : string;
  item_value : nat;
  item_color : string
}.

Definition chartData (rs : list ProcessingResult) : list ChartItem :=
  match rs with
  | [] => []
  | _ =>
      let counts := tally rs in
      List.filter (fun item => 0 <? item_value item)
        [ {| item_name := "Validated"; item_value := validated counts;
             item_color := "#22c55e" |};
          {| item_name := "Mismatch"; item_value := mismatch counts;
             item_color := "#ef4444" |};
          {| item_name := "Needs Review"; item_value := review counts;
             item_color := "#f59e0b" |};
          {| item_name := "Error"; item_value := errors counts;
             item_color := "#6b7280" |} ]
  end.

(** ** Predicates used in the statements *)

Arguments now_timestamp {World} toISOString w.
Arguments try_row {World} getBase64FromUrl validateReceipt row w.
Arguments process_loop {World} toISOString getBase64FromUrl validateReceipt
  total index rows newResults w.
Arguments handleProcessData {World} toISOString getBase64FromUrl
  validateReceipt st w.

(** The first record fails and its message carries the credential marker. *)
Definition first_is_critical {World}
    (getBase64FromUrl : string -> World -> (Thrown + (string * string)) * World)
    (validateReceipt : string -> string -> StudentData -> World ->
                       (Thrown + ValidationResponse) * World)
    (row : CsvRow) (w : World) : bool :=
  match fst (try_row getBase64FromUrl validateReceipt row w) with
  | inl err => Str.includes "Invalid API Key" (errorMessage_of err)
  | inr _ => false
  end.

(** The outcome recorded for a record whose iteration runs to its end. *)
Definition outcome_of (row : CsvRow) (tried : Thrown + ValidationResponse)
    (ts : string) : ProcessingResult :=
  match tried with
  | inr v =>
      {| originalData := row; validation := Some v; error := None;
         timestamp := ts |}
  | inl err =>
      {| originalData := row; validation := None;
         error := Some (errorMessage_of err); timestamp := ts |}
  end.

(** The iteration at [index] ends the run. *)
Definition stops (index : nat) (tried : Thrown + ValidationResponse) : bool :=
  match tried with
  | inl err => is_critical index (errorMessage_of err)
  | inr _ => false
  end.

(** The normal shape of a header key: alphanumeric characters, possibly
    followed by one last character that is not white space. *)
Fixpoint camel_shape (s : string) : bool :=
  match s with
  | "" => true
  | String c s' =>
      match s' with
      | "" => negb (Char.is_ws c)
      | String _ _ => Char.is_alnum c && camel_shape s'
      end
  end.

(** Empty, or ending in a character that is not white space. *)
Fixpoint ends_clean (s : string) : bool :=
  match s with
  | "" => true
  | String c s' =>
      match s' with
      | "" => negb (Char.is_ws c)
      | String _ _ => ends_clean s'
      end
  end.

(** The field rule in the words of the specification: only the quote
    characters that surround the field are stripped, and the result is
    trimmed. *)
Fixpoint strip_trailing_quote (s : string) : string :=
  match s with
  | "" => ""
  | String c s' =>
      match s' with
      | "" => if Char.is_quote c then "" else s
      | String _ _ => String c (strip_trailing_quote s')
      end
  end.

Definition strip_leading_quote (s : string) : string :=
  match s with
  | String c s' => if Char.is_quote c then s' else s
  | "" => ""
  end.

Definition spec_field_value (cell : string) : string :=
  Str.trim (strip_trailing_quote (strip_leading_quote (Str.trim cell))).

(** ** A small world to run the pipeline in *)

Module Demo.

(** The world counts the readings of the clock. *)
Definition toISOString (w : nat) : string * nat :=
  ("2024-05-01T10:20:30.000Z", S w).

Definition getBase64FromUrl (url : string) (w : nat)
    : (Thrown + (string * string)) * nat :=
  (inr ("aGVsbG8=", "image/png"), w).

Definition verdict (status : string) : ValidationResponse :=
  {| Extracted_Information :=
       {| Student_Name := "Ann"; Amount := "100"; Campus := "North";
          Payment_Date := "2024-04-30"; Transaction_Details := "";
          Reference_Number := "42"; Proof_Type := "UPI";
          Logo_Present := true; Stamp_Present := false |};
     Validation_Status := status;
     Observations := "ok" |}.

(** The service rejects the credential whenever the declared name is Bob. *)
Definition validateReceipt (base64 mimeType : string) (sd : StudentData)
    (w : nat) : (Thrown + ValidationResponse) * nat :=
  if String.eqb (sd_name sd) "Bob"
  then (inl (JsError "Invalid API Key. Check the configuration."), w)
  else (inr (verdict status_validated), w).

Definition record (name : string) : CsvRow :=
  {[ "name" := name; "paymentScreenshotUrl" := "https://example.org/p.png" ]}.

Definition state (rows : list CsvRow) : AppState :=
  {| processedData := rows; results := []; isLoading := false;
     appError := None; progress := (0, 0) |}.

Definition run (rows : list CsvRow) : list Event * nat :=
  handleProcessData toISOString getBase64FromUrl validateReceipt
    (state rows) 0.

End Demo.

(** ** Sample inputs *)

Definition csv_doe_jane : string :=
  "name,amount" +:+ Str.nl +:+ Str.dq +:+ "Doe, Jane" +:+ Str.dq +:+ ",100".

Definition cell_embedded_quotes : string :=
  "He said " +:+ Str.dq +:+ "ok" +:+ Str.dq +:+ " twice".

Definition csv_embedded_quotes : string :=
  "remark" +:+ Str.nl +:+ cell_embedded_quotes.

Definition csv_shadowed : string :=
  "has own property,name" +:+ Str.nl +:+ "x,y".

Definition csv_ragged : string :=
  "name,amount,utr" +:+ Str.nl +:+ "Ann" +:+ Str.nl +:+ "Bob,5,u1,extra".

Definition rows_first_rejected : list CsvRow :=
  [Demo.record "Bob"; Demo.record "Ann"; Demo.record "Cy"].
Definition rows_second_rejected : list CsvRow :=
  [Demo.record "Ann"; Demo.record "Bob"; Demo.record "Cy"].

Definition outcome_ann : ProcessingResult :=
  {| originalData := Demo.record "Ann";
     validation := Some (Demo.verdict status_validated);
     error := None; timestamp := "2024-05-01 10:20:30" |}.
Definition outcome_bob : ProcessingResult :=
  {| originalData := Demo.record "Bob"; validation := None;
     error := Some "Invalid API Key. Check the configuration.";
     timestamp := "2024-05-01 10:20:30" |}.

(** ** Reference descriptions used in the statements *)

(** The records in turn, each one attempted in the world left by the one
    before it and followed by one reading of the clock; the result is the
    outcome of every record, in order, and the world left at the end. *)
Fixpoint outcomes_in_order {World : Type}
    (toISOString : World -> string * World)
    (getBase64FromUrl : string -> World -> (Thrown + (string * string)) * World)
    (validateReceipt : string -> string -> StudentData -> World ->
                       (Thrown + ValidationResponse) * World)
    (rows : list CsvRow) (w : World) : list ProcessingResult * World :=
  match rows with
  | [] => ([], w)
  | row :: rows' =>
      let tried := try_row getBase64FromUrl validateReceipt row w in
      let ts := now_timestamp toISOString (snd tried) in
      let rest :=
        outcomes_in_order toISOString getBase64FromUrl validateReceipt
          rows' (snd ts) in
      (match fst tried with
       | inr v =>
           {| originalData := row; validation := Some v; error := None;
              timestamp := fst ts |}
       | inl err =>
           {| originalData := row; validation := None;
              error := Some (errorMessage_of err); timestamp := fst ts |}
       end :: fst rest, snd rest)
  end.

(** The splitting rule in the words of the specification: a comma separates
    two fields when it is not enclosed in quotes, that is when an even number
    of quote characters precede it on the line; [inside] tells whether an odd
    number of quote characters has been read so far. *)
Fixpoint spec_split_from (inside : bool) (line : string) : list string :=
  match line with
  | "" => [""]
  | String c rest =>
      if Char.is_quote c
      then Str.cons_head c (spec_split_from (negb inside) rest)
      else if Char.is_comma c && negb inside
           then "" :: spec_split_from inside rest
           else Str.cons_head c (spec_split_from inside rest)
  end.

Definition spec_split_fields (line : string) : list string :=
  spec_split_from false line.

(** A data line with a closed quoted field and a stray quote after it. *)
Definition line_stray_quote : string :=
  Str.dq +:+ "Doe, Jane" +:+ Str.dq +:+ ",5" +:+ Str.dq +:+ " pipe".

Definition line_doe_jane : string :=
  Str.dq +:+ "Doe, Jane" +:+ Str.dq +:+ ",100".

(** A character of the ASCII range, where the character model is exact. *)
Definition is_ascii (c : ascii) : bool := Char.code c <? 128.

(** A world whose classification service rejects with an [Error] of empty
    message. *)
Module Silent.

Definition validateReceipt (base64 mimeType : string) (sd : StudentData)
    (w : nat) : (Thrown + ValidationResponse) * nat :=
  (inl (JsError ""), w).

Definition run (rows : list CsvRow) : list Event * nat :=
  handleProcessData Demo.toISOString Demo.getBase64FromUrl validateReceipt
    (Demo.state rows) 0.


End Silent.

(** ** [copyResultsForSheet] (App.tsx, lines 172-188) *)

(** [a || b] where [a] is a string or [undefined]. *)
Definition or_else (a : option string) (b : string) : string :=
  match a with
  | Some s => if Str.truthy s then s else b
  | None => b
  end.

(** [s.replace(/q/g, 'qq')], [q] being the double quote. *)
Fixpoint escape_quotes (s : string) : string :=
  match s with
  | "" => ""
  | String c s' =>
      if Char.is_quote c
      then String Char.quote (String Char.quote (escape_quotes s'))
      else String c (escape_quotes s')
  end.

Definition tab : string := String "009"%char "".
Definition is_tab (c : ascii) : bool := Char.code c =? 9.

(** [res.validation?.Validation_Status || 'Processing Error'] *)
Definition compact_status (res : ProcessingResult) : string :=
  or_else (option_map Validation_Status (validation res)) "Processing Error".

(** [res.validation?.Observations || res.error || ''] *)
Definition observations_text (res : ProcessingResult) : string :=
  or_else (option_map Observations (validation res)) (or_else (error res) "").

(** The three cells of one line of the clipboard table. *)
Definition compact_cells (res : ProcessingResult) : list string :=
  [compact_status res;
   Str.dq +:+ escape_quotes (observations_text res) +:+ Str.dq;
   timestamp res].

Definition compact_row (res : ProcessingResult) : string :=
  Str.join tab (compact_cells res).

Definition compact_headers : list string :=
  ["Validation Status"; "Observations"; "Last Validated"].

(** The text handed to [navigator.clipboard.writeText]; nothing is written
    when there is no result. *)
Definition copyResultsForSheet (rs : list ProcessingResult) : option string :=
  match rs with
  | [] => None
  | _ =>
      Some (Str.join Str.nl
              (Str.join tab compact_headers :: List.map compact_row rs))
  end.

(** ** [downloadResults] (App.tsx, lines 190-225) *)

(** The value of a cell of the detailed report. *)
Inductive Cell :=
| CellText (s : string)
| CellBool (b : bool)
| CellUndefined.

(** [res.originalData.key] *)
Definition original_cell (res : ProcessingResult) (key : string) : Cell :=
  match originalData res !! key with
  | Some s => CellText s
  | None => CellUndefined
  end.

(** [extractedInfo?.field || ''] *)
Definition extracted_text (res : ProcessingResult)
    (field : ExtractedInformation -> string) : Cell :=
  CellText
    (or_else (option_map (fun v => field (Extracted_Information v))
                (validation res)) "").

(** [extractedInfo?.field ?? ''] for a boolean field. *)
Definition extracted_flag (res : ProcessingResult)
    (field : ExtractedInformation -> bool) : Cell :=
  match validation res with
  | Some v => CellBool (field (Extracted_Information v))
  | None => CellText ""
  end.

(** [res.validation?.Validation_Status || (res.error ? 'Processing Error' : '')] *)
Definition full_status (res : ProcessingResult) : string :=
  or_else (option_map Validation_Status (validation res))
    (if Str.truthy (default "" (error res)) then "Processing Error" else "").

(** One object of [dataForSheet], its keys in the order of the literal. *)
Definition sheet_row (res : ProcessingResult) : list (string * Cell) :=
  [("User ID", original_cell res "userId");
   ("Name", original_cell res "name");
   ("Amount", original_cell res "amount");
   ("Campus Name", original_cell res "campusName");
   ("Payment Date", original_cell res "paymentDate");
   ("UTR", original_cell res "utr");
   ("Screenshot URL", original_cell res "paymentScreenshotUrl");
   ("Extracted Student Name", extracted_text res Student_Name);
   ("Extracted Amount", extracted_text res Amount);
   ("Extracted Campus", extracted_text res Campus);
   ("Extracted Payment Date", extracted_text res Payment_Date);
   ("Extracted Transaction Details", extracted_text res Transaction_Details);
   ("Extracted Reference Number", extracted_text res Reference_Number);
   ("Extracted Proof Type", extracted_text res Proof_Type);
   ("Extracted Logo Present", extracted_flag res Logo_Present);
   ("Extracted Stamp Present", extracted_flag res Stamp_Present);
   ("Validation Status", CellText (full_status res));
   ("Observations", CellText (observations_text res));
   ("Last Validated", CellText (timestamp res))].

(** The rows handed to [XLSX.utils.json_to_sheet]; nothing is written when
    there is no result. *)
Definition downloadResults (rs : list ProcessingResult)
    : option (list (list (string * Cell))) :=
  match rs with
  | [] => None
  | _ => Some (List.map sheet_row rs)
  end.

(** ** [handleFetchData] (App.tsx, lines 65-90) *)

(** What the handler reads of a [Response]: [ok], [status] and the outcome of
    [text()]. *)
Record Response := {
  resp_ok : bool;
  resp_status : nat;
  resp_text : Thrown + string
}.

(** A setter call of the fetch handler: one of the setters above, or
    [setIsFetchingSheet]. *)
Inductive FetchEvent :=
| AppSet (e : Event)
| SetIsFetchingSheet (b : bool).

Definition no_url_message : string := "Please enter a Google Sheet URL.".

(** The number [response.status] inside a template literal. *)
Definition string_of_status (n : nat) : string :=
  NilEmpty.string_of_uint (Nat.to_uint n).

Definition bad_status_message (status : nat) : string :=
  "Failed to fetch data (Status: " +:+ string_of_status status
  +:+ "). Ensure the URL is correct and the sheet is published to the web.".

Definition fetch_error_message (err : Thrown) : string :=
  "Failed to fetch from URL. " +:+ errorMessage_of err.

Section Fetch.

Variable World : Type.
Variable fetch : string -> World -> (Thrown + Response) * World.
(** The message of the [TypeError] of a call of a string, which the engine
    chooses. *)
Variable type_error_message : string.

(** The [try] block: the setter calls of the parser, or what was thrown. *)
Definition fetch_try (sheetUrl : string) (w : World)
    : (Thrown + list Event) * World :=
  let '(fetched, w1) := fetch sheetUrl w in
  match fetched with
  | inl err => (inl err, w1)
  | inr response =>
      if negb (resp_ok response)
      then (inl (JsError (bad_status_message (resp_status response))), w1)
      else
        match resp_text response with
        | inl err => (inl err, w1)
        | inr text => (parseAndValidateCsv type_error_message text, w1)
        end
  end.

Definition handleFetchData (sheetUrl : string) (w : World)
    : list FetchEvent * World :=
  if negb (Str.truthy sheetUrl)
  then ([AppSet (SetError (Some no_url_message))], w)
  else
    let '(tried, w1) := fetch_try sheetUrl w in
    (([SetIsFetchingSheet true; AppSet (SetError None);
       AppSet (SetProcessedData []); AppSet (SetResults [])]
      ++ match tried with
         | inr events => List.map AppSet events
         | inl err =>
             [AppSet (SetError (Some (fetch_error_message err)));
              AppSet (SetProcessedData [])]
         end
      ++ [SetIsFetchingSheet false])%list, w1).

End Fetch.

Arguments fetch_try {World} fetch type_error_message sheetUrl w.
Arguments handleFetchData {World} fetch type_error_message sheetUrl w.

(** The calls of a fetch that reach the state modelled by [AppState]. *)
Definition app_events (events : list FetchEvent) : list Event :=
  omap (fun e => match e with AppSet a => Some a | _ => None end) events.

(** ** Further predicates and sample inputs *)

(** Every run of quote characters has even length; [odd] tells whether the
    run being read has an odd length so far. *)
Fixpoint even_quote_runs_from (odd : bool) (s : string) : bool :=
  match s with
  | "" => negb odd
  | String c s' =>
      if Char.is_quote c then even_quote_runs_from (negb odd) s'
      else negb odd && even_quote_runs_from false s'
  end.

Definition even_quote_runs (s : string) : bool := even_quote_runs_from false s.

Definition has_key (row : CsvRow) (key : string) : bool :=
  bool_decide (is_Some (row !! key)).

(** An outcome the tally takes for an error, and an outcome it takes for a
    verdict of the given category. *)
Definition is_error_outcome (r : ProcessingResult) : bool :=
  Str.truthy (default "" (error r)).

Definition has_status (status : string) (r : ProcessingResult) : bool :=
  negb (is_error_outcome r) &&
  match validation r with
  | Some v => String.eqb (Validation_Status v) status
  | None => false
  end.

Definition bump (b : bool) : nat := if b then 1 else 0.

Definition total (c : Counts) : nat :=
  validated c + mismatch c + review c + errors c.

Definition csv_complete : string :=
  "Name,Amount,UTR,Payment Date,Campus Name,Payment Screenshot URL"
  +:+ Str.nl +:+ "Ann,100,u1,2024-04-30,North,https://example.org/p.png".

(** * Properties *)

Example normalizeHeader_payment_date :
  normalizeHeader "Payment Date" = "paymentDate".
Proof. reflexivity. Qed.

Example normalizeHeader_screenshot_url :
  normalizeHeader "  payment_screenshot_url " = "paymentScreenshotUrl".
Proof. reflexivity. Qed.

Example normalizeHeader_trailing_separators :
  normalizeHeader "amount__" = "amount_".
Proof. reflexivity. Qed.

Example split_fields_doe_jane :
  split_fields (Str.dq +:+ "Doe, Jane" +:+ Str.dq +:+ ",100")
  = [Str.dq +:+ "Doe, Jane" +:+ Str.dq; "100"].
Proof. reflexivity. Qed.

(** ** Characters *)

Ltac each_ascii c :=
  destruct c as [[] [] [] [] [] [] [] []]; vm_compute; try congruence; auto.

Module CharFacts.

Lemma alnum_not_ws c : Char.is_alnum c = true -> Char.is_ws c = false.
Proof. each_ascii c. Qed.

Lemma not_ws_dot c : Char.is_ws c = false -> Char.dot c = true.
Proof. each_ascii c. Qed.

Lemma alnum_dot c : Char.is_alnum c = true -> Char.dot c = true.
Proof. intros H. apply not_ws_dot, alnum_not_ws, H. Qed.

Lemma toLower_alnum c : Char.is_alnum (Char.toLower c) = Char.is_alnum c.
Proof. each_ascii c. Qed.

Lemma toLower_ws c : Char.is_ws (Char.toLower c) = Char.is_ws c.
Proof. each_ascii c. Qed.

Lemma toUpper_alnum c : Char.is_alnum (Char.toUpper c) = Char.is_alnum c.
Proof. each_ascii c. Qed.

Lemma toUpper_ws c : Char.is_ws (Char.toUpper c) = Char.is_ws c.
Proof. each_ascii c. Qed.

Lemma toLower_fixed c : Char.toLower c = c <-> Char.is_upper c = false.
Proof. each_ascii c; split; congruence. Qed.

Lemma quote_not_ws c : Char.is_quote c = true -> Char.is_ws c = false.
Proof. each_ascii c. Qed.

End CharFacts.

(** ** The shape of a normalized header *)

Module Normalize.

Lemma trimEnd_ends_clean s : ends_clean (Str.trimEnd s) = true.
Proof.
  induction s as [|c s IH]; simpl; [reflexivity|].
  destruct (Char.is_ws c) eqn:Hc; simpl.
  - destruct (Str.trimEnd s) eqn:Ht; simpl; [reflexivity|].
    exact IH.
  - destruct (Str.trimEnd s) eqn:Ht; simpl; [now rewrite Hc|].
    exact IH.
Qed.

Lemma trim_ends_clean s : ends_clean (Str.trim s) = true.
Proof. apply trimEnd_ends_clean. Qed.

Lemma lower_ends_clean s :
  ends_clean (Str.toLowerCase s) = ends_clean s.
Proof.
  induction s as [|c s IH]; simpl; [reflexivity|].
  destruct s as [|d s]; simpl in *.
  - now rewrite CharFacts.toLower_ws.
  - exact IH.
Qed.

Lemma lower_shape s : camel_shape (Str.toLowerCase s) = camel_shape s.
Proof.
  induction s as [|c s IH]; simpl; [reflexivity|].
  destruct s as [|d s]; simpl in *.
  - now rewrite CharFacts.toLower_ws.
  - rewrite CharFacts.toLower_alnum. now rewrite IH.
Qed.

Lemma lower_length s : String.length (Str.toLowerCase s) = String.length s.
Proof. unfold Str.toLowerCase. induction s; simpl; congruence. Qed.

Lemma match_sep_cons c s :
  match_sep (String c s) =
  if Char.is_alnum c then None
  else match match_sep s with
       | Some m => Some m
       | None =>
           match s with
           | String d rest => if Char.dot d then Some (d, rest) else None
           | "" => None
           end
       end.
Proof. reflexivity. Qed.

Lemma camel_replace_cons fuel c s :
  camel_replace (S fuel) (String c s) =
  match match_sep (String c s) with
  | Some (d, rest) => String (Char.toUpper d) (camel_replace fuel rest)
  | None => String c (camel_replace fuel s)
  end.
Proof. reflexivity. Qed.

(** A separator run that is not the very end of a clean text is matched. *)
Lemma match_sep_some c s :
  Char.is_alnum c = false -> s <> "" -> ends_clean (String c s) = true ->
  match_sep (String c s) <> None.
Proof.
  revert c. induction s as [|d s IH]; intros c Hc Hne Hend; [congruence|].
  rewrite match_sep_cons, Hc.
  destruct (match_sep (String d s)) eqn:Hm; [congruence|].
  destruct (Char.is_alnum d) eqn:Hd.
  - now rewrite (CharFacts.alnum_dot _ Hd).
  - destruct s as [|e s].
    + simpl in Hend. rewrite CharFacts.not_ws_dot; [congruence|].
      now destruct (Char.is_ws d).
    + exfalso. apply (IH d); [assumption|congruence|exact Hend|exact Hm].
Qed.

(** What a match captures and leaves, on a clean text. *)
Lemma match_sep_inv s d rest :
  ends_clean s = true -> match_sep s = Some (d, rest) ->
  String.length rest < String.length s /\ ends_clean rest = true /\
  (Char.is_alnum d = true \/ (rest = "" /\ Char.is_ws d = false)).
Proof.
  revert d rest. induction s as [|c s IH]; intros d rest Hend Hm;
    [discriminate|].
  rewrite match_sep_cons in Hm.
  destruct (Char.is_alnum c) eqn:Hc; [discriminate|].
  destruct s as [|e s]; [discriminate|].
  assert (Hend' : ends_clean (String e s) = true) by exact Hend.
  destruct (match_sep (String e s)) as [m|] eqn:Hm'.
  - inversion Hm; subst m.
    destruct (IH d rest Hend' eq_refl) as (Hlen & Hr & Hd).
    repeat split; [simpl in *; lia|assumption|assumption].
  - destruct (Char.dot e) eqn:He; [|discriminate].
    inversion Hm; subst e rest.
    repeat split; [simpl; lia| |].
    + destruct s; [reflexivity|exact Hend'].
    + destruct (Char.is_alnum d) eqn:Hd; [now left|right].
      destruct s as [|f s].
      * split; [reflexivity|]. simpl in Hend'. now destruct (Char.is_ws d).
      * exfalso.
        apply (match_sep_some d (String f s)); [assumption|congruence|
          exact Hend'|exact Hm'].
Qed.

(** A match always consumes something, so the scan ends however much fuel is
    left over. *)
Lemma match_sep_shorter s d rest :
  match_sep s = Some (d, rest) -> String.length rest < String.length s.
Proof.
  revert d rest. induction s as [|c s IH]; intros d rest Hm; [discriminate|].
  rewrite match_sep_cons in Hm.
  destruct (Char.is_alnum c); [discriminate|].
  destruct (match_sep s) as [m|] eqn:Hs.
  - injection Hm as ->. specialize (IH d rest eq_refl). simpl. lia.
  - destruct s as [|e s]; [discriminate|].
    destruct (Char.dot e); [|discriminate].
    injection Hm as -> ->. simpl. lia.
Qed.

Lemma camel_replace_fuel f1 f2 s :
  String.length s <= f1 -> String.length s <= f2 ->
  camel_replace f1 s = camel_replace f2 s.
Proof.
  revert f2 s. induction f1 as [|f1 IH]; intros f2 s H1 H2.
  - destruct s; [now destruct f2|simpl in H1; lia].
  - destruct s as [|c s]; [now destruct f2|].
    destruct f2 as [|f2]; [simpl in H2; lia|].
    rewrite !camel_replace_cons.
    destruct (match_sep (String c s)) as [[d rest]|] eqn:Hm.
    + apply match_sep_shorter in Hm. f_equal.
      apply IH; simpl in *; lia.
    + f_equal. apply IH; simpl in *; lia.
Qed.

Lemma shape_cons_alnum c s :
  Char.is_alnum c = true -> camel_shape s = true ->
  camel_shape (String c s) = true.
Proof.
  intros Hc Hs. simpl. destruct s.
  - now rewrite (CharFacts.alnum_not_ws _ Hc).
  - now rewrite Hc.
Qed.

(** The replacement leaves a text of the normal shape. *)
Lemma camel_replace_shape fuel s :
  String.length s <= fuel -> ends_clean s = true ->
  camel_shape (camel_replace fuel s) = true.
Proof.
  revert s. induction fuel as [|fuel IH]; intros s Hlen Hend.
  - destruct s; [reflexivity|simpl in Hlen; lia].
  - destruct s as [|c s]; [reflexivity|].
    rewrite camel_replace_cons.
    destruct (match_sep (String c s)) as [[d rest]|] eqn:Hm.
    + destruct (match_sep_inv _ _ _ Hend Hm) as (Hl & Hr & Hd).
      destruct Hd as [Hd|[-> Hd]].
      * apply shape_cons_alnum; [now rewrite CharFacts.toUpper_alnum|].
        apply IH; [simpl in *; lia|assumption].
      * destruct fuel; simpl; now rewrite CharFacts.toUpper_ws, Hd.
    + destruct (Char.is_alnum c) eqn:Hc.
      * apply shape_cons_alnum; [assumption|].
        apply IH; [simpl in *; lia|].
        destruct s; [reflexivity|exact Hend].
      * destruct s as [|e s].
        -- destruct fuel; simpl in *; exact Hend.
        -- exfalso.
           apply (match_sep_some c (String e s)); [assumption|congruence|
             exact Hend|exact Hm].
Qed.

(** On a text of the normal shape nothing is left to replace. *)
Lemma camel_replace_fixed fuel s :
  camel_shape s = true -> camel_replace fuel s = s.
Proof.
  revert s. induction fuel as [|fuel IH]; intros s Hs; [reflexivity|].
  destruct s as [|c s]; [reflexivity|].
  rewrite camel_replace_cons, match_sep_cons.
  destruct s as [|e s].
  - simpl. destruct (Char.is_alnum c); destruct fuel; reflexivity.
  - simpl in Hs. apply andb_true_iff in Hs as [Hc Hs].
    rewrite Hc. f_equal. now apply IH.
Qed.

Lemma shape_trim s : camel_shape s = true -> Str.trim s = s.
Proof.
  intros Hs. unfold Str.trim.
  assert (Hstart : Str.trimStart s = s).
  { destruct s as [|c s]; [reflexivity|]. simpl.
    destruct s; simpl in Hs.
    - now destruct (Char.is_ws c).
    - apply andb_true_iff in Hs as [Hc _].
      now rewrite (CharFacts.alnum_not_ws _ Hc). }
  rewrite Hstart. clear Hstart.
  induction s as [|c s IH]; [reflexivity|].
  simpl. destruct s as [|e s].
  - simpl in *. now destruct (Char.is_ws c).
  - simpl in Hs. apply andb_true_iff in Hs as [Hc Hs].
    rewrite (CharFacts.alnum_not_ws _ Hc). simpl. f_equal. now apply IH.
Qed.

Lemma normalizeHeader_shape h : camel_shape (normalizeHeader h) = true.
Proof.
  unfold normalizeHeader. apply camel_replace_shape; [lia|].
  rewrite lower_ends_clean. apply trim_ends_clean.
Qed.

Lemma normalizeHeader_of_shape s :
  camel_shape s = true -> normalizeHeader s = Str.toLowerCase s.
Proof.
  intros Hs. unfold normalizeHeader. rewrite (shape_trim _ Hs).
  apply camel_replace_fixed. now rewrite lower_shape.
Qed.

Lemma lower_fixed s :
  Str.toLowerCase s = s <-> Str.any Char.is_upper s = false.
Proof.
  unfold Str.toLowerCase.
  induction s as [|c s IH]; simpl; [tauto|].
  rewrite orb_false_iff, <- IH, <- CharFacts.toLower_fixed.
  split; [intros H; injection H as H1 H2; now split|].
  intros [H1 H2]. now rewrite H1, H2.
Qed.

End Normalize.

(** ** Strings: trimming, splitting, removing *)

Module StrFacts.

Lemma all_ws_trimStart s :
  Str.all Char.is_ws s = true -> Str.trimStart s = "".
Proof.
  induction s as [|c s IH]; simpl; [reflexivity|].
  intros H. apply andb_true_iff in H as [Hc Hs]. rewrite Hc. now apply IH.
Qed.

Lemma all_ws_trimEnd s :
  Str.all Char.is_ws s = true -> Str.trimEnd s = "".
Proof.
  induction s as [|c s IH]; simpl; [reflexivity|].
  intros H. apply andb_true_iff in H as [Hc Hs].
  now rewrite Hc, (IH Hs).
Qed.

Lemma all_ws_trim s : Str.all Char.is_ws s = true -> Str.trim s = "".
Proof. intros H. unfold Str.trim. now rewrite (all_ws_trimStart _ H). Qed.

Lemma trimEnd_app_ws s w :
  Str.all Char.is_ws w = true -> Str.trimEnd (s +:+ w) = Str.trimEnd s.
Proof.
  intros Hw. induction s as [|c s IH]; simpl.
  - now apply all_ws_trimEnd.
  - now rewrite IH.
Qed.

(** White space appended to a text does not survive [trim]. *)
Lemma trim_app_ws s w :
  Str.all Char.is_ws w = true -> Str.trim (s +:+ w) = Str.trim s.
Proof.
  intros Hw. unfold Str.trim. induction s as [|c s IH]; simpl.
  - change ("" +:+ w) with w. now rewrite (all_ws_trimStart _ Hw).
  - destruct (Char.is_ws c); [exact IH|].
    change (String c (s +:+ w)) with (String c s +:+ w).
    now apply trimEnd_app_ws.
Qed.

Lemma cons_head_length c l :
  l <> [] -> length (Str.cons_head c l) = length l.
Proof. destruct l; [congruence|reflexivity]. Qed.

Lemma split_nonempty p s : Str.split p s <> [].
Proof.
  induction s as [|c s IH]; simpl; [discriminate|].
  destruct (p c); [discriminate|].
  destruct (Str.split p s); [congruence|discriminate].
Qed.

(** A split yields one more piece than there are separators. *)
Lemma split_length p s : length (Str.split p s) = S (Str.count p s).
Proof.
  induction s as [|c s IH]; simpl; [reflexivity|].
  destruct (p c); simpl; [now rewrite IH|].
  rewrite cons_head_length; [exact IH|apply split_nonempty].
Qed.

Lemma remove_none p s : Str.any p (Str.remove p s) = false.
Proof.
  induction s as [|c s IH]; simpl; [reflexivity|].
  destruct (p c) eqn:Hc; [exact IH|]. simpl. now rewrite Hc.
Qed.

End StrFacts.

(** ** Records built by the parser *)

Module Rows.

Lemma shape_not_proto h : camel_shape h = true -> h <> "__proto__".
Proof. intros H ->. vm_compute in H. discriminate. Qed.

Lemma obj_set_of_shape h :
  camel_shape h = true -> obj_set h = insert h.
Proof.
  intros H. unfold obj_set.
  destruct (decide (h = "__proto__")) as [E|_]; [|reflexivity].
  now apply shape_not_proto in H.
Qed.

Lemma parse_headers_shape lines :
  Forall (fun h => camel_shape h = true) (parse_headers lines).
Proof.
  unfold parse_headers. apply Forall_forall. intros h Hin.
  apply list_elem_of_In, in_map_iff in Hin as (x & <- & _).
  apply Normalize.normalizeHeader_shape.
Qed.

Lemma reduce_row_dom values index headers (obj : CsvRow) :
  Forall (fun h => camel_shape h = true) headers ->
  dom (reduce_row values index headers obj) = list_to_set headers ∪ dom obj.
Proof.
  revert index obj. induction headers as [|h hs IH]; intros index obj Hs.
  - simpl. now rewrite (left_id_L ∅ (∪)).
  - inversion Hs as [|? ? Hh Hhs]; subst. simpl.
    rewrite (IH _ _ Hhs), (obj_set_of_shape _ Hh).
    rewrite dom_insert_L, (assoc_L (∪)). f_equal. apply (comm_L (∪)).
Qed.

Lemma reduce_row_absent values index headers (obj : CsvRow) k :
  k ∉ headers -> reduce_row values index headers obj !! k = obj !! k.
Proof.
  revert index obj. induction headers as [|h hs IH]; intros index obj Hk;
    [reflexivity|].
  apply not_elem_of_cons in Hk as [Hne Hk]. simpl.
  rewrite (IH _ _ Hk). unfold obj_set.
  destruct (decide (h = "__proto__")); [reflexivity|].
  now rewrite lookup_insert_ne.
Qed.

(** The value under a key is the cell at the last position of that key. *)
Lemma reduce_row_last values index headers (obj : CsvRow) i k :
  Forall (fun h => camel_shape h = true) headers ->
  headers !! i = Some k ->
  (forall j, i < j -> headers !! j <> Some k) ->
  reduce_row values index headers obj !! k
  = Some (field_value (values !! (index + i))).
Proof.
  revert index obj i.
  induction headers as [|h hs IH]; intros index obj i Hs Hi Hlast;
    [discriminate|].
  inversion Hs as [|? ? Hh Hhs]; subst. simpl.
  destruct i as [|i].
  - injection Hi as ->. rewrite reduce_row_absent.
    + rewrite (obj_set_of_shape _ Hh), lookup_insert_eq.
      now rewrite Nat.add_0_r.
    + intros Hin. apply list_elem_of_lookup in Hin as [j Hj].
      apply (Hlast (S j)); [lia|exact Hj].
  - rewrite (IH (S index) _ i Hhs Hi).
    + f_equal. f_equal. f_equal. lia.
    + intros j Hj. apply (Hlast (S j)). lia.
Qed.

(** Every key has a last position. *)
Lemma last_position (headers : list string) k :
  k ∈ headers ->
  exists i, headers !! i = Some k /\ forall j, i < j -> headers !! j <> Some k.
Proof.
  induction headers as [|h hs IH]; intros Hin; [now apply elem_of_nil in Hin|].
  destruct (decide (k ∈ hs)) as [Hk|Hk].
  - destruct (IH Hk) as (i & Hi & Hlast). exists (S i). split; [exact Hi|].
    intros [|j] Hj; [lia|]. apply Hlast. lia.
  - apply elem_of_cons in Hin as [->|Hin]; [|contradiction].
    exists 0. split; [reflexivity|].
    intros [|j] Hj; [lia|]. simpl. intros Hl. apply Hk.
    apply list_elem_of_lookup. now exists j.
Qed.

(** Where a value of a record comes from. *)
Lemma reduce_row_lookup values headers k v :
  Forall (fun h => camel_shape h = true) headers ->
  reduce_row values 0 headers ∅ !! k = Some v ->
  exists i, headers !! i = Some k /\
            (forall j, i < j -> headers !! j <> Some k) /\
            v = field_value (values !! i).
Proof.
  intros Hs Hv.
  destruct (decide (k ∈ headers)) as [Hk|Hk].
  - destruct (last_position _ _ Hk) as (i & Hi & Hlast).
    exists i. repeat split; [exact Hi|exact Hlast|].
    rewrite (reduce_row_last values 0 headers ∅ i k Hs Hi Hlast) in Hv.
    simpl in Hv. congruence.
  - rewrite reduce_row_absent in Hv by exact Hk.
    now rewrite lookup_empty in Hv.
Qed.

(** Cells beyond the last header play no part. *)
Lemma reduce_row_take values index headers (obj : CsvRow) :
  reduce_row (take (index + length headers) values) index headers obj
  = reduce_row values index headers obj.
Proof.
  revert index obj. induction headers as [|h hs IH]; intros index obj;
    [reflexivity|].
  simpl. rewrite lookup_take_lt by lia.
  replace (index + S (length hs)) with (S index + length hs) by lia.
  apply IH.
Qed.

Lemma count_app p s t :
  Str.count p (s +:+ t) = Str.count p s + Str.count p t.
Proof. induction s as [|c s IH]; simpl; [reflexivity|]. rewrite IH. lia. Qed.

(** On a line with an even number of quote characters, a comma cuts exactly
    when an even number of quote characters precede it, that is when it lies
    outside the quoted stretches. *)
Lemma comma_cuts_outside_quotes pre post :
  Nat.even (Str.count Char.is_quote (pre +:+ String Char.comma post)) = true ->
  split_fields (String Char.comma post)
  = if Nat.even (Str.count Char.is_quote pre)
    then "" :: split_fields post
    else Str.cons_head Char.comma (split_fields post).
Proof.
  intros Heven. rewrite count_app in Heven.
  change (Str.count Char.is_quote (String Char.comma post))
    with (Str.count Char.is_quote post) in Heven.
  rewrite Nat.even_add in Heven.
  cbn [split_fields].
  change (Char.is_comma Char.comma) with true. cbn [andb].
  destruct (Nat.even (Str.count Char.is_quote pre)),
           (Nat.even (Str.count Char.is_quote post));
    (reflexivity || discriminate).
Qed.

Lemma parse_data_lookup lines i row :
  parse_data lines !! i = Some row ->
  exists line, tl lines !! i = Some line /\
               row = row_of_line (parse_headers lines) line.
Proof.
  unfold parse_data. intros H.
  change (List.map ?f ?l) with (f <$> l) in H.
  apply list_lookup_fmap_Some in H as (line & Hr & Hl).
  exists line. split; [exact Hl|exact Hr].
Qed.

End Rows.

(** ** The processing loop *)

Section PipelineFacts.

Context {World : Type}.
Variable toISOString : World -> string * World.
Variable getBase64FromUrl :
  string -> World -> (Thrown + (string * string)) * World.
Variable validateReceipt :
  string -> string -> StudentData -> World ->
  (Thrown + ValidationResponse) * World.

Local Abbreviation loop := (process_loop toISOString getBase64FromUrl validateReceipt).
Local Abbreviation attempt := (try_row getBase64FromUrl validateReceipt).
Local Abbreviation clock := (now_timestamp toISOString).

(** One iteration that goes on to the next record. *)
Lemma loop_continue total index row rows (acc : list ProcessingResult) w :
  stops index (fst (attempt row w)) = false ->
  let tried := attempt row w in
  let ts := clock (snd tried) in
  let acc' := (acc ++ [outcome_of row (fst tried) (fst ts)])%list in
  loop total index (row :: rows) acc w
  = (SetProgress (index + 1) total :: SetResults acc'
       :: fst (loop total (S index) rows acc' (snd ts)),
     snd (loop total (S index) rows acc' (snd ts))).
Proof.
  intros Hstop. cbn zeta. cbn [process_loop].
  destruct (attempt row w) as [[err|v] w1]; cbn [fst snd] in *.
  - cbn [stops] in Hstop. rewrite Hstop.
    destruct (clock w1) as [ts w2]. cbn [fst snd outcome_of].
    now destruct (loop total (S index) rows _ w2).
  - destruct (clock w1) as [ts w2]. cbn [fst snd outcome_of].
    now destruct (loop total (S index) rows _ w2).
Qed.

(** The iteration that stops the run. *)
Lemma loop_stop total index row rows (acc : list ProcessingResult) w :
  stops index (fst (attempt row w)) = true ->
  exists err,
    fst (attempt row w) = inl err /\
    loop total index (row :: rows) acc w
    = ([SetProgress (index + 1) total;
        SetError (Some (critical_banner (errorMessage_of err)));
        SetIsLoading false;
        SetResults
          [{| originalData := row; validation := None;
              error := Some (critical_error (errorMessage_of err));
              timestamp := fst (clock (snd (attempt row w))) |}]],
       snd (clock (snd (attempt row w)))).
Proof.
  intros Hstop. cbn [process_loop].
  destruct (attempt row w) as [[err|v] w1]; cbn [fst snd stops] in *;
    [|discriminate].
  exists err. split; [reflexivity|]. rewrite Hstop.
  now destruct (clock w1).
Qed.

Lemma stops_later index tried : 0 < index -> stops index tried = false.
Proof.
  intros Hi. destruct tried as [err|v]; [|reflexivity].
  unfold stops, is_critical. destruct index; [lia|reflexivity].
Qed.

End PipelineFacts.

Section OutcomeFacts.

Context {World : Type}.
Variable toISOString : World -> string * World.
Variable getBase64FromUrl :
  string -> World -> (Thrown + (string * string)) * World.
Variable validateReceipt :
  string -> string -> StudentData -> World ->
  (Thrown + ValidationResponse) * World.

Local Abbreviation loop := (process_loop toISOString getBase64FromUrl validateReceipt).
Local Abbreviation attempt := (try_row getBase64FromUrl validateReceipt).
Local Abbreviation clock := (now_timestamp toISOString).
Local Abbreviation reference := (outcomes_in_order toISOString getBase64FromUrl validateReceipt).
Local Abbreviation handle := (handleProcessData toISOString getBase64FromUrl validateReceipt).

Lemma reference_cons row rows w :
  reference (row :: rows) w
  = (outcome_of row (fst (attempt row w)) (fst (clock (snd (attempt row w))))
       :: fst (reference rows (snd (clock (snd (attempt row w))))),
     snd (reference rows (snd (clock (snd (attempt row w)))))).
Proof.
  cbn [outcomes_in_order]. unfold outcome_of.
  now destruct (fst (attempt row w)).
Qed.

Lemma reference_records rows : forall w,
  List.map originalData (fst (reference rows w)) = rows.
Proof.
  induction rows as [|row rows IH]; intros w; [reflexivity|].
  rewrite reference_cons. cbn [fst List.map]. rewrite IH. f_equal.
  now destruct (fst (attempt row w)).
Qed.

(** From the second record on the loop records the outcome of every record,
    each attempted in the world left by the one before, and touches neither
    the error nor anything but the results, the progress and the loading
    flag. *)
Lemma loop_outcomes total rows :
  forall index (acc : list ProcessingResult) w st,
  0 < index -> results st = acc ->
  let run := loop total index rows acc w in
  let final := apply_events st (fst run) in
  results final = (acc ++ fst (reference rows w))%list /\
  snd run = snd (reference rows w) /\
  appError final = appError st /\
  isLoading final = false /\
  progress_trace (fst run)
  = List.map (fun i => (S i, total)) (seq index (length rows)).
Proof.
  induction rows as [|row rows IH]; intros index acc w st Hi Hacc.
  - cbn. rewrite app_nil_r. repeat split. exact Hacc.
  - cbn zeta.
    rewrite (loop_continue toISOString getBase64FromUrl validateReceipt
               total index row rows acc w) by (now apply stops_later).
    cbn zeta. rewrite reference_cons.
    set (tried := attempt row w). set (ts := clock (snd tried)).
    set (acc' := (acc ++ [outcome_of row (fst tried) (fst ts)])%list).
    set (st' := apply_event (apply_event st (SetProgress (index + 1) total))
                  (SetResults acc')).
    destruct (IH (S index) acc' (snd ts) st')
      as (Hres & Hw & Herr & Hload & Htrace); [lia|reflexivity|].
    cbn [fst snd].
    change (apply_events st (?a :: ?b :: ?l)) with (apply_events st' l).
    change (progress_trace (SetProgress ?c ?t :: SetResults ?r :: ?l))
      with ((c, t) :: progress_trace l).
    repeat split.
    + rewrite Hres. unfold acc'. now rewrite <- app_assoc.
    + exact Hw.
    + exact Herr.
    + exact Hload.
    + rewrite Htrace. cbn [length seq List.map]. now rewrite Nat.add_1_r.
Qed.

(** A run whose first record does not stop it. *)
Lemma handle_goes_on st w row rows :
  processedData st = row :: rows ->
  stops 0 (fst (attempt row w)) = false ->
  let run := handle st w in
  let final := apply_events st (fst run) in
  results final = fst (reference (row :: rows) w) /\
  snd run = snd (reference (row :: rows) w) /\
  appError final = None /\
  isLoading final = false /\
  progress_trace (fst run)
  = (0, S (length rows))
      :: List.map (fun i => (S i, S (length rows))) (seq 0 (S (length rows))).
Proof.
  intros Hdata Hstop. cbn zeta. unfold handleProcessData. rewrite Hdata.
  rewrite (loop_continue toISOString getBase64FromUrl validateReceipt
             (length (row :: rows)) 0 row rows [] w Hstop).
  cbn zeta. rewrite reference_cons.
  set (tried := attempt row w). set (ts := clock (snd tried)).
  set (acc' := ([] ++ [outcome_of row (fst tried) (fst ts)])%list).
  set (total := length (row :: rows)).
  set (st' := apply_events st
                [SetIsLoading true; SetError None; SetResults [];
                 SetProgress 0 total; SetProgress (0 + 1) total;
                 SetResults acc']).
  destruct (loop_outcomes total rows 1 acc' (snd ts) st')
    as (Hres & Hw & Herr & Hload & Htrace); [lia|reflexivity|].
  cbn [fst snd].
  change (apply_events st (?a :: ?b :: ?c :: ?d :: ?e :: ?f :: ?l))
    with (apply_events st' l).
  change (progress_trace
            (SetIsLoading true :: SetError None :: SetResults []
               :: SetProgress 0 total :: SetProgress (0 + 1) total
               :: SetResults acc' :: ?l))
    with ((0, total) :: (1, total) :: progress_trace l).
  repeat split.
  - rewrite Hres. reflexivity.
  - exact Hw.
  - rewrite Herr. reflexivity.
  - exact Hload.
  - rewrite Htrace. reflexivity.
Qed.

(** A run stopped by its first record. *)
Lemma handle_stops st w row rows :
  processedData st = row :: rows ->
  stops 0 (fst (attempt row w)) = true ->
  let run := handle st w in
  let final := apply_events st (fst run) in
  exists err,
    fst (attempt row w) = inl err /\
    is_critical 0 (errorMessage_of err) = true /\
    results final
    = [{| originalData := row; validation := None;
          error := Some (critical_error (errorMessage_of err));
          timestamp := fst (clock (snd (attempt row w))) |}] /\
    published (fst run) = [[]; results final] /\
    progress_trace (fst run) = [(0, S (length rows)); (1, S (length rows))] /\
    isLoading final = false /\
    appError final = Some (critical_banner (errorMessage_of err)) /\
    snd run = snd (clock (snd (attempt row w))).
Proof.
  intros Hdata Hstop. cbn zeta. unfold handleProcessData. rewrite Hdata.
  destruct (loop_stop toISOString getBase64FromUrl validateReceipt
              (length (row :: rows)) 0 row rows [] w Hstop)
    as (err & Herr & Heq).
  exists err. rewrite Heq. rewrite Herr in Hstop. cbn [stops] in Hstop.
  cbn. now rewrite Herr.
Qed.

Lemma stops_first w row :
  stops 0 (fst (attempt row w))
  = first_is_critical getBase64FromUrl validateReceipt row w.
Proof.
  unfold stops, first_is_critical, is_critical.
  now destruct (fst (attempt row w)).
Qed.

End OutcomeFacts.

(** ** The parser as a whole *)

Module Parser.

Lemma parse_data_length lines :
  length (parse_data lines) = length lines - 1.
Proof.
  unfold parse_data. rewrite length_map. destruct lines; simpl; lia.
Qed.

Lemma parse_outcome_short csv :
  length (csv_lines csv) < 2 -> parse_outcome csv = EmptyInputError.
Proof.
  intros H. unfold parse_outcome.
  now destruct (Nat.ltb_spec (length (csv_lines csv)) 2); [|lia].
Qed.

(** With two lines or more the parser hands at least one record to the
    schema check, which is then the only thing that can fail. *)
Lemma parse_outcome_long csv :
  2 <= length (csv_lines csv) ->
  exists firstRow rest,
    parse_data (csv_lines csv) = firstRow :: rest /\
    parse_outcome csv
    = match filter_throwing
              (fun col => option_map negb (hasOwnProperty firstRow col))
              requiredColumns with
      | None => UncaughtTypeError
      | Some [] => Parsed (firstRow :: rest)
      | Some missingColumns => MissingColumnsError missingColumns
      end.
Proof.
  intros H. unfold parse_outcome.
  destruct (Nat.ltb_spec (length (csv_lines csv)) 2); [lia|].
  pose proof (parse_data_length (csv_lines csv)) as Hlen.
  destruct (parse_data (csv_lines csv)) as [|firstRow rest];
    [simpl in Hlen; lia|].
  now exists firstRow, rest.
Qed.

Lemma filter_throwing_total {A} (p : A -> bool) (xs : list A) :
  filter_throwing (fun x => Some (p x)) xs = Some (List.filter p xs).
Proof.
  induction xs as [|x xs IH]; simpl; [reflexivity|]. now rewrite IH.
Qed.

(** The schema check on a first record without a [hasOwnProperty] column:
    the required keys that the record lacks are reported, all of them. *)
Lemma schema_check_unshadowed csv firstRow rest :
  2 <= length (csv_lines csv) ->
  parse_data (csv_lines csv) = firstRow :: rest ->
  firstRow !! "hasOwnProperty" = None ->
  parse_outcome csv
  = match List.filter (fun col => negb (bool_decide (is_Some (firstRow !! col))))
            requiredColumns with
    | [] => Parsed (firstRow :: rest)
    | missingColumns => MissingColumnsError missingColumns
    end.
Proof.
  intros Hlen Hdata Hown.
  destruct (parse_outcome_long csv Hlen) as (r & rs & Hd & ->).
  rewrite Hdata in Hd. injection Hd as <- <-.
  unfold hasOwnProperty. rewrite Hown. cbn [option_map].
  rewrite (filter_throwing_total
             (fun col => negb (bool_decide (is_Some (firstRow !! col))))).
  now destruct (List.filter _ requiredColumns).
Qed.

Lemma csv_lines_app_ws csv tail :
  Str.all Char.is_ws tail = true -> csv_lines (csv +:+ tail) = csv_lines csv.
Proof.
  intros H. unfold csv_lines. now rewrite StrFacts.trim_app_ws.
Qed.

End Parser.

(** * The claims of the specification *)

(** C1.  When the attempt on the first record throws and the message
    carries the invalid-credential marker, the run ends at once: the outcome
    list is replaced by the single outcome of that failure, whose error text
    is the message behind the words that say processing was stopped; the
    lists handed to [setResults] are the empty one and that one; the only
    progress reports are the initial one and that of record 0; and the world
    is the one left by the attempt on record 0 and one reading of the clock,
    so no later record is attempted.  When the first record does not fail in
    that way, whatever the later records throw, no stop happens: progress is
    reported for every record in order, the final outcome list is the outcome
    of every record in order, each record being attempted in the world left by
    the one before it (its verdict, or the message of what it threw, with the
    clock read after the attempt), and the world is the one left by the last
    record. *)
Theorem first_record_short_circuit {World : Type}
    (toISOString : World -> string * World)
    (getBase64FromUrl : string -> World -> (Thrown + (string * string)) * World)
    (validateReceipt : string -> string -> StudentData -> World ->
                       (Thrown + ValidationResponse) * World)
    (st : AppState) (w : World) (row : CsvRow) (rows : list CsvRow) :
  processedData st = row :: rows ->
  let total := S (length rows) in
  let first := try_row getBase64FromUrl validateReceipt row w in
  let run := handleProcessData toISOString getBase64FromUrl validateReceipt st w in
  let final := apply_events st (fst run) in
  let reference :=
    outcomes_in_order toISOString getBase64FromUrl validateReceipt
      (row :: rows) w in
  (first_is_critical getBase64FromUrl validateReceipt row w = true ->
   exists err,
     fst first = inl err /\
     results final
     = [{| originalData := row; validation := None;
           error := Some ("Processing stopped due to critical error: "
                          +:+ errorMessage_of err);
           timestamp := fst (now_timestamp toISOString (snd first)) |}] /\
     published (fst run) = [[]; results final] /\
     progress_trace (fst run) = [(0, total); (1, total)] /\
     isLoading final = false /\
     appError final
     = Some ("Critical Error: " +:+ errorMessage_of err
             +:+ " Processing has been stopped. Please check your application configuration.") /\
     snd run = snd (now_timestamp toISOString (snd first))) /\
  (first_is_critical getBase64FromUrl validateReceipt row w = false ->
   progress_trace (fst run)
   = (0, total) :: List.map (fun i => (S i, total)) (seq 0 total) /\
   results final = fst reference /\
   snd run = snd reference /\
   length (results final) = total /\
   List.map originalData (results final) = row :: rows /\
   appError final = None /\
   isLoading final = false).
Proof.
  intros Hdata. cbn zeta. split; intros Hcrit.
  - destruct (handle_stops toISOString getBase64FromUrl validateReceipt
                st w row rows Hdata)
      as (err & Herr & _ & Hres & Hpub & Htrace & Hload & Hban & Hw).
    { now rewrite stops_first. }
    exists err. repeat split; assumption.
  - destruct (handle_goes_on toISOString getBase64FromUrl validateReceipt
                st w row rows Hdata)
      as (Hres & Hw & Herr & Hload & Htrace).
    { now rewrite stops_first. }
    pose proof (reference_records toISOString getBase64FromUrl validateReceipt
                  (row :: rows) w) as Hrec.
    repeat split; try assumption.
    + rewrite Hres, <- (length_map originalData), Hrec. reflexivity.
    + now rewrite Hres.
Qed.

(** C1, at a concrete input. *)
Lemma first_record_short_circuit_witness :
  (results (apply_events (Demo.state rows_first_rejected)
              (fst (Demo.run rows_first_rejected)))
   = [{| originalData := Demo.record "Bob"; validation := None;
         error := Some "Processing stopped due to critical error: Invalid API Key. Check the configuration.";
         timestamp := "2024-05-01 10:20:30" |}] /\
   progress_trace (fst (Demo.run rows_first_rejected)) = [(0, 3); (1, 3)] /\
   snd (Demo.run rows_first_rejected) = 1) /\
  (progress_trace (fst (Demo.run rows_second_rejected))
   = [(0, 3); (1, 3); (2, 3); (3, 3)] /\
   results (apply_events (Demo.state rows_second_rejected)
              (fst (Demo.run rows_second_rejected)))
   = [outcome_ann; outcome_bob;
      {| originalData := Demo.record "Cy";
         validation := Some (Demo.verdict status_validated);
         error := None; timestamp := "2024-05-01 10:20:30" |}] /\
   snd (Demo.run rows_second_rejected) = 3).
Proof.
  split.
  - destruct (first_record_short_circuit Demo.toISOString Demo.getBase64FromUrl
                Demo.validateReceipt (Demo.state rows_first_rejected) 0
                (Demo.record "Bob") [Demo.record "Ann"; Demo.record "Cy"]
                eq_refl) as [Hstop _].
    destruct (Hstop eq_refl) as (err & Herr & Hres & _ & Htrace & _ & _ & Hw).
    injection Herr as <-.
    split; [exact Hres|]. split; [exact Htrace|exact Hw].
  - destruct (first_record_short_circuit Demo.toISOString Demo.getBase64FromUrl
                Demo.validateReceipt (Demo.state rows_second_rejected) 0
                (Demo.record "Ann") [Demo.record "Bob"; Demo.record "Cy"]
                eq_refl) as [_ Hgo].
    destruct (Hgo eq_refl) as (Htrace & Hres & Hw & _).
    split; [exact Htrace|]. split; [exact Hres|exact Hw].
Defined.

(** C2 (as stated, refuted).  Normalizing [paymentDate], the normal form of
    [Payment Date], gives [paymentdate]. *)
Lemma normalizeHeader_not_idempotent :
  ~ (forall h, normalizeHeader (normalizeHeader h) = normalizeHeader h).
Proof.
  intros H. specialize (H "Payment Date"). vm_compute in H. discriminate.
Qed.

(** C2 (amended).  Normalizing a normalized header lower-cases it; so
    normalization is idempotent on exactly those headers whose normal form has
    no upper-case letter. *)
Theorem normalizeHeader_twice (h : string) :
  normalizeHeader (normalizeHeader h) = Str.toLowerCase (normalizeHeader h) /\
  (normalizeHeader (normalizeHeader h) = normalizeHeader h <->
   Str.any Char.is_upper (normalizeHeader h) = false).
Proof.
  assert (E : normalizeHeader (normalizeHeader h)
              = Str.toLowerCase (normalizeHeader h)).
  { apply Normalize.normalizeHeader_of_shape, Normalize.normalizeHeader_shape. }
  split; [exact E|]. rewrite E. apply Normalize.lower_fixed.
Qed.

(** C3 (the code at the failing input).  An outcome without error whose
    verdict category is the third member of the status type is counted in no
    bucket: the [case] label of the tally is a different string, and the chart
    of a run made of such an outcome is empty. *)
Theorem review_status_not_counted (row : CsvRow) (info : ExtractedInformation)
    (obs ts : string) :
  let r := {| originalData := row;
              validation := Some {| Extracted_Information := info;
                                    Validation_Status := status_review;
                                    Observations := obs |};
              error := None; timestamp := ts |} in
  case_review <> status_review /\
  tally [r] = {| validated := 0; mismatch := 0; review := 0; errors := 0 |} /\
  chartData [r] = [].
Proof.
  cbn zeta. split; [|split].
  - vm_compute. discriminate.
  - reflexivity.
  - reflexivity.
Qed.

(** C4 (as stated, refuted).  The code does not cut at exactly the commas
    that are not enclosed in quotes: on the line [qDoe, Janeq,5q pipe] ([q]
    the double quote) it cuts at the comma inside the closed quoted field and
    not at the comma after it, while the rule of the specification does the
    opposite. *)
Lemma comma_inside_quotes_is_cut :
  ~ (forall line, split_fields line = spec_split_fields line).
Proof.
  intros H. specialize (H line_stray_quote). vm_compute in H. discriminate.
Qed.

(** C4 (amended).  The code decides a comma by the quote characters that
    follow it: on every line it cuts as the rule of the specification would
    when started inside a quoted field exactly if the line has an odd number
    of quote characters.  So on every line with an even number of quote
    characters the commas that separate are exactly those that are not
    enclosed in quotes; and the text of header line [name,amount] and data
    line [qDoe, Janeq,100] gives exactly one record, with name [Doe, Jane] and
    amount [100]. *)
Theorem quoted_comma_is_not_a_separator (line : string) :
  split_fields line
  = spec_split_from (Nat.odd (Str.count Char.is_quote line)) line /\
  (Nat.even (Str.count Char.is_quote line) = true ->
   split_fields line = spec_split_fields line) /\
  parse_headers (csv_lines csv_doe_jane) = ["name"; "amount"] /\
  parse_data (csv_lines csv_doe_jane)
  = [ {[ "name" := "Doe, Jane"; "amount" := "100" ]} ].
Proof.
  assert (E : split_fields line
              = spec_split_from (Nat.odd (Str.count Char.is_quote line)) line).
  { induction line as [|c rest IH]; [reflexivity|].
    cbn [split_fields spec_split_from Str.count].
    destruct (Char.is_quote c) eqn:Hq.
    - assert (Hc : Char.is_comma c = false) by (revert Hq; each_ascii c).
      rewrite Hc. cbn [andb]. rewrite IH. f_equal. f_equal.
      rewrite Nat.odd_succ. now rewrite Nat.negb_even.
    - cbn [Nat.add]. rewrite Nat.negb_odd.
      destruct (Char.is_comma c && Nat.even (Str.count Char.is_quote rest));
        now rewrite IH. }
  split; [exact E|]. split.
  - intros Heven. rewrite E. unfold spec_split_fields.
    now rewrite <- Nat.negb_even, Heven.
  - split; vm_compute; reflexivity.
Qed.

(** C4, at a concrete input. *)
Lemma quoted_comma_is_not_a_separator_witness :
  split_fields line_doe_jane = [Str.dq +:+ "Doe, Jane" +:+ Str.dq; "100"].
Proof.
  destruct (quoted_comma_is_not_a_separator line_doe_jane) as (_ & H & _).
  rewrite (H eq_refl). reflexivity.
Defined.

(** C5 (the code at the failing input).  For a sheet with a column titled
    [has own property], whose key is [hasOwnProperty], and without the column
    [utr], the schema check does not report the missing columns: the call of
    [firstRow.hasOwnProperty] throws, no setter is called and the exception
    leaves [parseAndValidateCsv]. *)
Theorem schema_check_shadowed_method (type_error_message : string) :
  parse_data (csv_lines csv_shadowed)
  = [ {[ "hasOwnProperty" := "x"; "name" := "y" ]} ] /\
  parse_outcome csv_shadowed = UncaughtTypeError /\
  parseAndValidateCsv type_error_message csv_shadowed
  = inl (JsError type_error_message).
Proof.
  assert (E : parse_outcome csv_shadowed = UncaughtTypeError)
    by (vm_compute; reflexivity).
  split; [vm_compute; reflexivity|]. split; [exact E|].
  unfold parseAndValidateCsv. now rewrite E.
Qed.


(** C7 (as stated, refuted).  The code does not keep the quote characters
    inside a field: for the cell [He said qokq twice] ([q] the double quote)
    the rule of the specification keeps both, the code removes them. *)
Lemma interior_quotes_are_removed :
  ~ (forall cell, field_value (Some cell) = spec_field_value cell).
Proof.
  intros H. specialize (H cell_embedded_quotes). vm_compute in H.
  discriminate.
Qed.

(** C7 (amended).  Every value of a parsed record is the cell at a position of
    its key, trimmed and then stripped of all its quote characters, those
    around it and those inside it alike (the empty string when the line has
    no cell there); so no value contains a quote character. *)
Theorem parsed_values_have_no_quotes (csv : string) (i : nat) (row : CsvRow)
    (k v : string) :
  parse_data (csv_lines csv) !! i = Some row ->
  row !! k = Some v ->
  Str.any Char.is_quote v = false /\
  exists line j,
    tl (csv_lines csv) !! i = Some line /\
    parse_headers (csv_lines csv) !! j = Some k /\
    v = match split_fields line !! j with
        | Some cell => Str.remove Char.is_quote (Str.trim cell)
        | None => ""
        end.
Proof.
  intros Hrow Hv.
  destruct (Rows.parse_data_lookup _ _ _ Hrow) as (line & Hline & ->).
  destruct (Rows.reduce_row_lookup _ _ _ _
              (Rows.parse_headers_shape (csv_lines csv)) Hv)
    as (j & Hj & _ & ->).
  split.
  - unfold field_value. destruct (split_fields line !! j); [|reflexivity].
    apply StrFacts.remove_none.
  - now exists line, j.
Qed.

(** C7, at a concrete input. *)
Lemma parsed_values_have_no_quotes_witness :
  Str.any Char.is_quote "He said ok twice" = false.
Proof.
  destruct (parsed_values_have_no_quotes csv_embedded_quotes 0
              {[ "remark" := "He said ok twice" ]} "remark" "He said ok twice")
    as [H _].
  - vm_compute. reflexivity.
  - vm_compute. reflexivity.
  - exact H.
Defined.


(** C9.  Every record built by the parser has exactly the normalized headers
    as its keys.  A key at a position the line has no cell for holds the empty
    string; the cells beyond the last header play no part in the record, and
    every value of the record is the cell at a position below the number of
    headers. *)
Theorem parsed_rows_key_set (csv : string) (i : nat) (row : CsvRow) :
  parse_data (csv_lines csv) !! i = Some row ->
  dom row = list_to_set (parse_headers (csv_lines csv)) /\
  exists line,
    tl (csv_lines csv) !! i = Some line /\
    (forall j k, parse_headers (csv_lines csv) !! j = Some k ->
                 length (split_fields line) <= j -> row !! k = Some "") /\
    row = reduce_row
            (take (length (parse_headers (csv_lines csv))) (split_fields line))
            0 (parse_headers (csv_lines csv)) ∅ /\
    (forall k v, row !! k = Some v ->
       exists j, j < length (parse_headers (csv_lines csv)) /\
                 parse_headers (csv_lines csv) !! j = Some k /\
                 v = field_value (split_fields line !! j)).
Proof.
  intros Hrow.
  destruct (Rows.parse_data_lookup _ _ _ Hrow) as (line & Hline & ->).
  pose proof (Rows.parse_headers_shape (csv_lines csv)) as Hshape.
  set (headers := parse_headers (csv_lines csv)) in *.
  split.
  - unfold row_of_line. rewrite (Rows.reduce_row_dom _ _ _ _ Hshape).
    now rewrite dom_empty_L, (right_id_L ∅ (∪)).
  - exists line. split; [exact Hline|]. split; [|split].
    + intros j k Hj Hshort.
      destruct (Rows.last_position headers k) as (p & Hp & Hlast).
      { apply list_elem_of_lookup. now exists j. }
      unfold row_of_line.
      rewrite (Rows.reduce_row_last _ 0 headers ∅ p k Hshape Hp Hlast).
      assert (Hjp : j <= p).
      { destruct (Nat.le_gt_cases j p) as [|Hgt]; [assumption|].
        now destruct (Hlast j Hgt). }
      cbn [Nat.add]. rewrite lookup_ge_None_2 by lia. reflexivity.
    + unfold row_of_line.
      now rewrite <- (Rows.reduce_row_take (split_fields line) 0 headers ∅).
    + intros k v Hv.
      destruct (Rows.reduce_row_lookup _ _ _ _ Hshape Hv) as (j & Hj & _ & ->).
      exists j. split; [|now split].
      now apply lookup_lt_Some in Hj.
Qed.

(** C9, at a concrete input. *)
Lemma parsed_rows_key_set_witness :
  dom ({[ "name" := "Ann"; "amount" := ""; "utr" := "" ]} : CsvRow)
  = list_to_set (parse_headers (csv_lines csv_ragged)).
Proof.
  destruct (parsed_rows_key_set csv_ragged 0
              {[ "name" := "Ann"; "amount" := ""; "utr" := "" ]}) as [H _].
  - vm_compute. reflexivity.
  - exact H.
Defined.

(** C10.  The text is trimmed before it is split into lines: a text made of
    white space only, line feeds included, fails as empty input, and white
    space after the last data row, line feeds included, changes neither the
    lines nor the records nor the result. *)
Theorem text_is_trimmed_before_split (blank csv tail : string) :
  Str.all Char.is_ws blank = true ->
  Str.all Char.is_ws tail = true ->
  parse_outcome blank = EmptyInputError /\
  csv_lines (csv +:+ tail) = csv_lines csv /\
  parse_data (csv_lines (csv +:+ tail)) = parse_data (csv_lines csv) /\
  parse_outcome (csv +:+ tail) = parse_outcome csv.
Proof.
  intros Hblank Htail.
  pose proof (Parser.csv_lines_app_ws csv tail Htail) as E.
  split; [|split; [exact E|split]].
  - apply Parser.parse_outcome_short. unfold csv_lines.
    rewrite (StrFacts.all_ws_trim _ Hblank). simpl. lia.
  - now rewrite E.
  - unfold parse_outcome. now rewrite E.
Qed.

(** C10, at a concrete input. *)
Lemma text_is_trimmed_before_split_witness :
  parse_outcome (Str.nl +:+ " " +:+ Str.nl) = EmptyInputError /\
  parse_data (csv_lines (csv_doe_jane +:+ Str.nl +:+ Str.nl))
  = parse_data (csv_lines csv_doe_jane).
Proof.
  destruct (text_is_trimmed_before_split (Str.nl +:+ " " +:+ Str.nl)
              csv_doe_jane (Str.nl +:+ Str.nl) eq_refl eq_refl)
    as (H1 & _ & H2 & _).
  split; [exact H1|exact H2].
Defined.

(** * Further properties of the code *)

(** ** Splitting and joining *)

Module SplitFacts.

Lemma is_comma_eq c : Char.is_comma c = true -> c = Char.comma.
Proof. each_ascii c. Qed.

Lemma is_newline_eq c : Char.is_newline c = true -> c = Char.newline.
Proof. each_ascii c. Qed.

Lemma is_tab_eq c : is_tab c = true -> c = "009"%char.
Proof. each_ascii c. Qed.

Lemma comma_not_quote c : Char.is_comma c = true -> Char.is_quote c = false.
Proof. each_ascii c. Qed.

Lemma join_cons sep x (xs : list string) :
  xs <> [] -> Str.join sep (x :: xs) = x +:+ sep +:+ Str.join sep xs.
Proof. destruct xs; [congruence|reflexivity]. Qed.

Lemma join_cons_head sep c (l : list string) :
  l <> [] -> Str.join sep (Str.cons_head c l) = String c (Str.join sep l).
Proof.
  destruct l as [|f [|g fs]]; [congruence|reflexivity|reflexivity].
Qed.

Lemma split_fields_nonempty line : split_fields line <> [].
Proof.
  induction line as [|c rest IH]; simpl; [discriminate|].
  destruct (Char.is_comma c && _); [discriminate|].
  destruct (split_fields rest); [congruence|discriminate].
Qed.

(** Joining the pieces of a split with the separator gives the text back. *)
Lemma join_split p c s :
  (forall x, p x = true -> x = c) ->
  Str.join (String c "") (Str.split p s) = s.
Proof.
  intros Hp. induction s as [|x s IH]; [reflexivity|]. simpl.
  destruct (p x) eqn:Hx.
  - rewrite join_cons by apply StrFacts.split_nonempty.
    rewrite IH, (Hp x Hx). reflexivity.
  - rewrite join_cons_head by apply StrFacts.split_nonempty.
    now rewrite IH.
Qed.

Lemma any_app p s t : Str.any p (s +:+ t) = Str.any p s || Str.any p t.
Proof.
  induction s as [|x s IH]; simpl; [reflexivity|].
  now rewrite IH, orb_assoc.
Qed.

Lemma split_clean p s : Str.any p s = false -> Str.split p s = [s].
Proof.
  induction s as [|x s IH]; simpl; [reflexivity|].
  intros H. apply orb_false_iff in H as [Hx Hs].
  now rewrite Hx, (IH Hs).
Qed.

Lemma split_app_clean p s sep t :
  Str.any p s = false -> p sep = true ->
  Str.split p (s +:+ String sep t) = s :: Str.split p t.
Proof.
  intros Hs Hsep. induction s as [|x s IH]; simpl.
  - now rewrite Hsep.
  - simpl in Hs. apply orb_false_iff in Hs as [Hx Hs].
    rewrite Hx, (IH Hs). reflexivity.
Qed.

(** Splitting a joined list of pieces that do not hold the separator gives
    the pieces back. *)
Lemma split_join p c (xs : list string) :
  p c = true -> xs <> [] ->
  Forall (fun x => Str.any p x = false) xs ->
  Str.split p (Str.join (String c "") xs) = xs.
Proof.
  intros Hc Hne Hall. induction Hall as [|x xs Hx Hxs IH]; [congruence|].
  destruct xs as [|y ys].
  - simpl. now apply split_clean.
  - rewrite join_cons by discriminate.
    change (String c "" +:+ ?t) with (String c t).
    rewrite (split_app_clean p x c _ Hx Hc). f_equal.
    apply IH. discriminate.
Qed.

Lemma count_none p s : Str.any p s = false -> Str.count p s = 0.
Proof.
  induction s as [|x s IH]; simpl; [reflexivity|].
  intros H. apply orb_false_iff in H as [Hx Hs]. now rewrite Hx, (IH Hs).
Qed.

End SplitFacts.

(** X1.  Nothing is lost when a line is cut into fields or a text into lines:
    the fields joined with commas are the line, and the lines joined with line
    feeds are the trimmed text. *)
Theorem splitting_loses_nothing (line csv : string) :
  Str.join "," (split_fields line) = line /\
  Str.join Str.nl (csv_lines csv) = Str.trim csv.
Proof.
  split.
  - induction line as [|c rest IH]; [reflexivity|]. simpl.
    destruct (Char.is_comma c) eqn:Hc; simpl.
    + destruct (Nat.even (Str.count Char.is_quote rest)).
      * rewrite SplitFacts.join_cons by apply SplitFacts.split_fields_nonempty.
        rewrite IH, (SplitFacts.is_comma_eq c Hc). reflexivity.
      * rewrite SplitFacts.join_cons_head
          by apply SplitFacts.split_fields_nonempty.
        now rewrite IH.
    + rewrite SplitFacts.join_cons_head
        by apply SplitFacts.split_fields_nonempty.
      now rewrite IH.
  - unfold csv_lines. apply SplitFacts.join_split.
    apply SplitFacts.is_newline_eq.
Qed.

(** X2.  On a line without any quote character the fields are those of a plain
    split at every comma. *)
Theorem unquoted_line_splits_at_every_comma (line : string) :
  Str.any Char.is_quote line = false ->
  split_fields line = Str.split Char.is_comma line.
Proof.
  induction line as [|c rest IH]; [reflexivity|]. simpl.
  intros H. apply orb_false_iff in H as [Hc Hrest].
  rewrite (SplitFacts.count_none _ _ Hrest), (IH Hrest). simpl.
  now rewrite andb_true_r.
Qed.

(** X2, at a concrete input. *)
Lemma unquoted_line_splits_at_every_comma_witness :
  split_fields "Bob,5,u1,extra" = Str.split Char.is_comma "Bob,5,u1,extra".
Proof.
  apply (unquoted_line_splits_at_every_comma "Bob,5,u1,extra").
  reflexivity.
Defined.

(** X3.  Every field but the first holds an even number of quote characters,
    and the first one has the parity of the whole line: on a line with an even
    number of quote characters no field is left with an unclosed quote. *)
Theorem fields_are_quote_balanced (line : string) :
  Forall (fun f => Nat.even (Str.count Char.is_quote f) = true)
    (tl (split_fields line)) /\
  Nat.even (Str.count Char.is_quote (hd "" (split_fields line)))
  = Nat.even (Str.count Char.is_quote line).
Proof.
  induction line as [|c rest [IHtl IHhd]]; [split; [constructor|reflexivity]|].
  pose proof (SplitFacts.split_fields_nonempty rest) as Hne.
  cbn [split_fields Str.count].
  destruct (Char.is_comma c && Nat.even (Str.count Char.is_quote rest))
    eqn:Hcut.
  - apply andb_true_iff in Hcut as [Hc Heven].
    rewrite (SplitFacts.comma_not_quote c Hc). cbn [tl hd Str.count Nat.add].
    split; [|now rewrite Heven].
    destruct (split_fields rest) as [|f fs]; [congruence|].
    constructor; [|exact IHtl]. cbn [hd] in IHhd. now rewrite IHhd.
  - destruct (split_fields rest) as [|f fs]; [congruence|].
    cbn [Str.cons_head tl hd Str.count] in *. split; [exact IHtl|].
    rewrite !Nat.even_add, IHhd. reflexivity.
Qed.

(** ** More on [normalizeHeader] *)

Module NormalizeMore.

Lemma trimStart_app_ws pad s :
  Str.all Char.is_ws pad = true -> Str.trimStart (pad +:+ s) = Str.trimStart s.
Proof.
  induction pad as [|c pad IH]; simpl; [reflexivity|].
  intros H. apply andb_true_iff in H as [Hc Hpad]. now rewrite Hc, (IH Hpad).
Qed.

Lemma trim_padded pad1 s pad2 :
  Str.all Char.is_ws pad1 = true -> Str.all Char.is_ws pad2 = true ->
  Str.trim (pad1 +:+ s +:+ pad2) = Str.trim s.
Proof.
  intros H1 H2. unfold Str.trim. rewrite (trimStart_app_ws _ _ H1).
  exact (StrFacts.trim_app_ws s pad2 H2).
Qed.

Lemma trimStart_lower s :
  Str.trimStart (Str.toLowerCase s) = Str.toLowerCase (Str.trimStart s).
Proof.
  unfold Str.toLowerCase. induction s as [|c s IH]; [reflexivity|].
  simpl. rewrite CharFacts.toLower_ws. now destruct (Char.is_ws c).
Qed.

Lemma trimEnd_lower s :
  Str.trimEnd (Str.toLowerCase s) = Str.toLowerCase (Str.trimEnd s).
Proof.
  unfold Str.toLowerCase. induction s as [|c s IH]; [reflexivity|].
  simpl. rewrite CharFacts.toLower_ws, IH.
  destruct (Char.is_ws c); [|reflexivity].
  now destruct (Str.trimEnd s).
Qed.

(** Trimming and lower-casing commute. *)
Lemma trim_lower s :
  Str.trim (Str.toLowerCase s) = Str.toLowerCase (Str.trim s).
Proof. unfold Str.trim. now rewrite trimStart_lower, trimEnd_lower. Qed.

Lemma alnum_shape s : Str.all Char.is_alnum s = true -> camel_shape s = true.
Proof.
  induction s as [|c s IH]; [reflexivity|]. simpl.
  intros H. apply andb_true_iff in H as [Hc Hs].
  destruct s; [now rewrite (CharFacts.alnum_not_ws _ Hc)|].
  now rewrite Hc, (IH Hs).
Qed.

Lemma lower_not_upper c : Char.is_upper (Char.toLower c) = false.
Proof. each_ascii c. Qed.

Lemma lower_no_upper s : Str.any Char.is_upper (Str.toLowerCase s) = false.
Proof.
  unfold Str.toLowerCase. induction s as [|c s IH]; [reflexivity|].
  simpl. now rewrite lower_not_upper, IH.
Qed.

(** A text of the normal shape is a run of alphanumeric characters followed
    by at most one other character, which is not white space. *)
Lemma shape_split s :
  camel_shape s = true ->
  exists body last,
    s = body +:+ last /\ Str.all Char.is_alnum body = true /\
    String.length last <= 1 /\ Str.any Char.is_ws last = false.
Proof.
  induction s as [|c s IH]; intros H.
  - exists "", "". repeat split. simpl. lia.
  - destruct s as [|d s].
    + exists "", (String c ""). simpl in *. repeat split; [lia|].
      now destruct (Char.is_ws c).
    + change (Char.is_alnum c && camel_shape (String d s) = true) in H.
      apply andb_true_iff in H as [Hc Hs].
      destruct (IH Hs) as (body & last & E & Hb & Hl & Hw).
      exists (String c body), last. rewrite E. simpl. rewrite Hc.
      repeat split; assumption.
Qed.

End NormalizeMore.

(** X4.  Normalization looks neither at the white space around a header nor
    at the case of its letters: two headers that agree up to case, one of them
    padded with white space, get the same key. *)
Theorem normalizeHeader_ignores_case_and_padding (pad1 h1 pad2 h2 : string) :
  Str.all Char.is_ws pad1 = true ->
  Str.all Char.is_ws pad2 = true ->
  Str.toLowerCase h1 = Str.toLowerCase h2 ->
  normalizeHeader (pad1 +:+ h1 +:+ pad2) = normalizeHeader h2.
Proof.
  intros H1 H2 Hcase. unfold normalizeHeader.
  rewrite (NormalizeMore.trim_padded _ _ _ H1 H2).
  now rewrite <- !NormalizeMore.trim_lower, Hcase.
Qed.

(** X4, at a concrete input. *)
Lemma normalizeHeader_ignores_case_and_padding_witness :
  normalizeHeader ("  " +:+ "CAMPUS name" +:+ " ") = normalizeHeader "Campus Name".
Proof.
  apply (normalizeHeader_ignores_case_and_padding "  " "CAMPUS name" " "
           "Campus Name"); reflexivity.
Defined.

(** X5.  The key of a header made of ASCII characters is a run of letters and
    digits followed by at most one other character; it holds no white
    space. *)
Theorem normalizeHeader_key_shape (h : string) :
  Str.all is_ascii h = true ->
  exists body last,
    normalizeHeader h = body +:+ last /\
    Str.all Char.is_alnum body = true /\
    String.length last <= 1 /\
    Str.any Char.is_ws (normalizeHeader h) = false.
Proof.
  intros _.
  destruct (NormalizeMore.shape_split _ (Normalize.normalizeHeader_shape h))
    as (body & last & E & Hb & Hl & Hw).
  exists body, last. repeat split; try assumption.
  rewrite E, SplitFacts.any_app, Hw, orb_false_r.
  clear E. induction body as [|c body IH]; [reflexivity|].
  simpl in *. apply andb_true_iff in Hb as [Hc Hb].
  now rewrite (CharFacts.alnum_not_ws _ Hc), (IH Hb).
Qed.

(** X5, at a concrete input. *)
Lemma normalizeHeader_key_shape_witness :
  exists body last,
    normalizeHeader "Payment Date (INR)" = body +:+ last /\
    Str.all Char.is_alnum body = true /\
    String.length last <= 1 /\
    Str.any Char.is_ws (normalizeHeader "Payment Date (INR)") = false.
Proof.
  apply (normalizeHeader_key_shape "Payment Date (INR)"). reflexivity.
Defined.

(** X6.  A header made of letters and digits only is just lower-cased, so its
    key has no capital: a capital in a key can only come from a separator in
    the header. *)
Theorem normalizeHeader_of_plain_word (h : string) :
  Str.all Char.is_alnum h = true ->
  normalizeHeader h = Str.toLowerCase h /\
  Str.any Char.is_upper (normalizeHeader h) = false.
Proof.
  intros H.
  assert (E : normalizeHeader h = Str.toLowerCase h)
    by apply Normalize.normalizeHeader_of_shape, NormalizeMore.alnum_shape, H.
  split; [exact E|]. rewrite E. apply NormalizeMore.lower_no_upper.
Qed.

(** X6, at a concrete input. *)
Lemma normalizeHeader_of_plain_word_witness :
  normalizeHeader "paymentDate" = "paymentdate".
Proof.
  destruct (normalizeHeader_of_plain_word "paymentDate" eq_refl) as [E _].
  exact E.
Defined.

(** ** The three ways the schema check ends *)

Module Schema.

Lemma filter_throwing_Some {A} (p : A -> option bool) (xs m : list A) :
  filter_throwing p xs = Some m ->
  (forall x, x ∈ xs -> is_Some (p x)) /\
  (forall x, x ∈ m <-> x ∈ xs /\ p x = Some true).
Proof.
  revert m. induction xs as [|x xs IH]; intros m H.
  - injection H as <-. split; intros y.
    + intros Hy. now apply elem_of_nil in Hy.
    + split; [intros Hy|intros [Hy _]]; now apply elem_of_nil in Hy.
  - simpl in H. destruct (p x) as [b|] eqn:Hx; [|discriminate].
    destruct (filter_throwing p xs) as [r|]; [|discriminate].
    destruct (IH r eq_refl) as [Hsome Hiff]. injection H as <-.
    split.
    + intros y Hy. apply elem_of_cons in Hy as [->|Hy]; [now rewrite Hx|auto].
    + intros y. destruct b.
      * rewrite !elem_of_cons, Hiff. split.
        -- intros [->|[Hy Hp]]; [now split; [left|]|now split; [right|]].
        -- intros [[->|Hy] Hp]; [now left|right; now split].
      * rewrite elem_of_cons, Hiff. split.
        -- intros [Hy Hp]. now split; [right|].
        -- intros [[->|Hy] Hp]; [congruence|now split].
Qed.

Lemma filter_throwing_None {A} (p : A -> option bool) (xs : list A) :
  filter_throwing p xs = None -> exists x, x ∈ xs /\ p x = None.
Proof.
  induction xs as [|x xs IH]; [discriminate|]. simpl.
  destruct (p x) as [b|] eqn:Hx.
  - destruct (filter_throwing p xs); [discriminate|].
    intros _. destruct (IH eq_refl) as (y & Hy & Hp).
    exists y. split; [now right|exact Hp].
  - intros _. exists x. split; [now left|exact Hx].
Qed.

(** All the records of a text have the normalized headers as their keys. *)
Lemma parsed_row_dom lines (row : CsvRow) :
  row ∈ parse_data lines -> dom row = list_to_set (parse_headers lines).
Proof.
  intros Hrow. apply list_elem_of_lookup in Hrow as [i Hi].
  destruct (Rows.parse_data_lookup _ _ _ Hi) as (line & _ & ->).
  unfold row_of_line.
  rewrite (Rows.reduce_row_dom _ _ _ _ (Rows.parse_headers_shape lines)).
  now rewrite dom_empty_L, (right_id_L ∅ (∪)).
Qed.

Lemma key_iff_header lines (row : CsvRow) col :
  row ∈ parse_data lines ->
  is_Some (row !! col) <-> col ∈ parse_headers lines.
Proof.
  intros Hrow. rewrite <- elem_of_dom, (parsed_row_dom _ _ Hrow).
  apply elem_of_list_to_set.
Qed.

Lemma check_true (row : CsvRow) col :
  option_map negb (hasOwnProperty row col) = Some true <->
  row !! "hasOwnProperty" = None /\ row !! col = None.
Proof.
  unfold hasOwnProperty. destruct (row !! "hasOwnProperty") as [s|].
  - simpl. split; [discriminate|intros [? _]; discriminate].
  - simpl. destruct (row !! col) as [v|] eqn:Hcol.
    + rewrite bool_decide_eq_true_2 by eauto. simpl.
      split; [discriminate|intros [_ ?]; discriminate].
    + rewrite bool_decide_eq_false_2 by (intros [? ?]; discriminate).
      simpl. tauto.
Qed.

Lemma check_false (row : CsvRow) col :
  option_map negb (hasOwnProperty row col) = Some false ->
  is_Some (row !! col).
Proof.
  unfold hasOwnProperty. destruct (row !! "hasOwnProperty"); [discriminate|].
  simpl. destruct (row !! col) as [v|]; [eauto|].
  rewrite bool_decide_eq_false_2 by (intros [? ?]; discriminate).
  discriminate.
Qed.

Lemma check_none (row : CsvRow) col :
  option_map negb (hasOwnProperty row col) = None <->
  is_Some (row !! "hasOwnProperty").
Proof.
  unfold hasOwnProperty. destruct (row !! "hasOwnProperty") as [s|]; simpl.
  - split; eauto.
  - split; [discriminate|intros [? ?]; discriminate].
Qed.

Lemma outcome_needs_two_lines csv :
  parse_outcome csv <> EmptyInputError -> 2 <= length (csv_lines csv).
Proof.
  intros H. destruct (Nat.lt_ge_cases (length (csv_lines csv)) 2) as [Hlt|];
    [|assumption].
  now rewrite (Parser.parse_outcome_short csv Hlt) in H.
Qed.

(** What an accepted text gives. *)
Lemma accepted_spec (csv : string) (data : list CsvRow) :
  parse_outcome csv = Parsed data ->
  data = parse_data (csv_lines csv) /\
  length data = Str.count Char.is_newline (Str.trim csv) /\
  0 < length data /\
  forall row col, row ∈ data -> col ∈ requiredColumns -> is_Some (row !! col).
Proof.
  intros Hout.
  assert (Hlen : 2 <= length (csv_lines csv))
    by (apply outcome_needs_two_lines; now rewrite Hout).
  destruct (Parser.parse_outcome_long csv Hlen) as (firstRow & rest & Hd & Heq).
  rewrite Hout in Heq.
  destruct (filter_throwing _ requiredColumns) as [[|m ms]|] eqn:Hf;
    try discriminate.
  injection Heq as ->. rewrite <- Hd.
  assert (Hn : length (parse_data (csv_lines csv))
               = Str.count Char.is_newline (Str.trim csv)).
  { rewrite Parser.parse_data_length. unfold csv_lines.
    rewrite StrFacts.split_length. lia. }
  repeat split; [exact Hn|rewrite Hd; simpl; lia|].
  rewrite Hd. intros row col Hrow Hcol.
  destruct (filter_throwing_Some _ _ _ Hf) as [Hsome Hiff].
  assert (Hfirst : is_Some (firstRow !! col)).
  { apply check_false. destruct (Hsome col Hcol) as [[|] Hb]; [|exact Hb].
    exfalso. apply (elem_of_nil col), Hiff. now split. }
  rewrite <- Hd in Hrow.
  apply (key_iff_header _ _ _ Hrow).
  apply (key_iff_header _ firstRow); [|exact Hfirst].
  rewrite Hd. now left.
Qed.

End Schema.

(** X7.  When the parser accepts a text, the data are the records of all the
    lines after the first, one per line feed of the trimmed text and at least
    one, and every record, not only the first, has every required column as a
    key. *)
Theorem accepted_data_have_required_columns (csv : string)
    (data : list CsvRow) :
  parse_outcome csv = Parsed data ->
  data = parse_data (csv_lines csv) /\
  length data = Str.count Char.is_newline (Str.trim csv) /\
  0 < length data /\
  forall row col, row ∈ data -> col ∈ requiredColumns -> is_Some (row !! col).
Proof. apply Schema.accepted_spec. Qed.

(** X7, at a concrete input. *)
Lemma accepted_data_have_required_columns_witness :
  length (parse_data (csv_lines csv_complete)) = 1.
Proof.
  destruct (accepted_data_have_required_columns csv_complete
              (parse_data (csv_lines csv_complete)))
    as (_ & Hn & _).
  - vm_compute. reflexivity.
  - rewrite Hn. reflexivity.
Defined.

(** X8.  When the parser reports missing columns, the columns it names are
    exactly the required ones that are not among the normalized headers, and
    there is at least one. *)
Theorem missing_columns_are_the_absent_required_ones (csv : string)
    (missingColumns : list string) :
  parse_outcome csv = MissingColumnsError missingColumns ->
  missingColumns <> [] /\
  forall col, col ∈ missingColumns <->
              col ∈ requiredColumns /\ col ∉ parse_headers (csv_lines csv).
Proof.
  intros Hout.
  assert (Hlen : 2 <= length (csv_lines csv))
    by (apply Schema.outcome_needs_two_lines; now rewrite Hout).
  destruct (Parser.parse_outcome_long csv Hlen) as (firstRow & rest & Hd & Heq).
  rewrite Hout in Heq.
  destruct (filter_throwing _ requiredColumns) as [[|m ms]|] eqn:Hf;
    try discriminate.
  injection Heq as ->. split; [discriminate|].
  destruct (Schema.filter_throwing_Some _ _ _ Hf) as [Hsome Hiff].
  assert (Hfirst : firstRow ∈ parse_data (csv_lines csv))
    by (rewrite Hd; now left).
  assert (Hown : firstRow !! "hasOwnProperty" = None).
  { destruct (firstRow !! "hasOwnProperty") as [s|] eqn:Hs; [|reflexivity].
    destruct (Hsome "name") as [b Hb]; [now left|].
    unfold hasOwnProperty in Hb. now rewrite Hs in Hb. }
  intros col. rewrite Hiff, Schema.check_true.
  rewrite <- (Schema.key_iff_header _ _ col Hfirst).
  rewrite <- not_eq_None_Some. split.
  - intros (Hcol & _ & Hnone). split; [exact Hcol|]. now intros H.
  - intros (Hcol & Hnone). repeat split; [exact Hcol|exact Hown|].
    destruct (firstRow !! col); [|reflexivity]. now destruct Hnone.
Qed.

(** X8, at a concrete input. *)
Lemma missing_columns_are_the_absent_required_ones_witness :
  "utr" ∈ ["utr"; "paymentDate"; "campusName"; "paymentScreenshotUrl"] <->
  "utr" ∈ requiredColumns /\ "utr" ∉ parse_headers (csv_lines csv_doe_jane).
Proof.
  destruct (missing_columns_are_the_absent_required_ones csv_doe_jane
              ["utr"; "paymentDate"; "campusName"; "paymentScreenshotUrl"])
    as [_ H].
  - vm_compute. reflexivity.
  - exact (H "utr").
Defined.

(** X9.  The schema check throws exactly when the text has at least two lines
    and one of its headers normalizes to [hasOwnProperty]; no other text makes
    the parser leave through an exception. *)
Theorem schema_check_throws_iff_shadowed (csv : string) :
  parse_outcome csv = UncaughtTypeError <->
  2 <= length (csv_lines csv) /\
  "hasOwnProperty" ∈ parse_headers (csv_lines csv).
Proof.
  split.
  - intros Hout.
    assert (Hlen : 2 <= length (csv_lines csv))
      by (apply Schema.outcome_needs_two_lines; now rewrite Hout).
    split; [exact Hlen|].
    destruct (Parser.parse_outcome_long csv Hlen)
      as (firstRow & rest & Hd & Heq).
    rewrite Hout in Heq.
    destruct (filter_throwing _ requiredColumns) as [[|m ms]|] eqn:Hf;
      try discriminate.
    destruct (Schema.filter_throwing_None _ _ Hf) as (col & _ & Hnone).
    apply Schema.check_none in Hnone.
    apply (Schema.key_iff_header _ firstRow); [|exact Hnone].
    rewrite Hd. now left.
  - intros [Hlen Hin].
    destruct (Parser.parse_outcome_long csv Hlen)
      as (firstRow & rest & Hd & ->).
    assert (Hown : is_Some (firstRow !! "hasOwnProperty")).
    { apply (Schema.key_iff_header (csv_lines csv)); [|exact Hin].
      rewrite Hd. now left. }
    destruct Hown as [s Hs].
    unfold requiredColumns. cbn [filter_throwing].
    unfold hasOwnProperty at 1. now rewrite Hs.
Qed.

(** ** The tally and the chart *)

Module Tally.

Lemma count_result_fields acc r :
  count_result acc r
  = {| validated := validated acc + bump (has_status "Receipt Validated" r);
       mismatch := mismatch acc + bump (has_status "Mismatch Found" r);
       review := review acc + bump (has_status case_review r);
       errors := errors acc + bump (is_error_outcome r) |}.
Proof.
  destruct acc as [v m w e].
  unfold count_result, has_status, is_error_outcome.
  cbn [validated mismatch review errors].
  destruct (Str.truthy (default "" (error r))); cbn [negb andb bump].
  - f_equal; lia.
  - destruct (validation r) as [x|]; [|cbn; f_equal; lia].
    destruct (String.eqb (Validation_Status x) "Receipt Validated") eqn:E1.
    + apply String.eqb_eq in E1. rewrite E1. cbn. f_equal; lia.
    + destruct (String.eqb (Validation_Status x) "Mismatch Found") eqn:E2.
      * apply String.eqb_eq in E2. rewrite E2. cbn. f_equal; lia.
      * destruct (String.eqb (Validation_Status x) case_review);
          cbn [bump]; f_equal; lia.
Qed.

Lemma tally_from rs : forall acc,
  fold_left count_result rs acc
  = {| validated := validated acc
                    + length (List.filter (has_status "Receipt Validated") rs);
       mismatch := mismatch acc
                   + length (List.filter (has_status "Mismatch Found") rs);
       review := review acc + length (List.filter (has_status case_review) rs);
       errors := errors acc + length (List.filter is_error_outcome rs) |}.
Proof.
  induction rs as [|r rs IH]; intros acc.
  - destruct acc. cbn. f_equal; lia.
  - cbn [fold_left]. rewrite IH, count_result_fields.
    cbn [validated mismatch review errors List.filter].
    destruct (has_status "Receipt Validated" r),
             (has_status "Mismatch Found" r), (has_status case_review r),
             (is_error_outcome r); cbn [bump length]; f_equal; lia.
Qed.

Lemma count_result_total acc r : total (count_result acc r) <= S (total acc).
Proof.
  destruct acc as [v m w e]. unfold count_result, total.
  destruct (Str.truthy _); [simpl; lia|].
  destruct (validation r) as [x|]; [|simpl; lia].
  destruct (String.eqb _ "Receipt Validated"); [simpl; lia|].
  destruct (String.eqb _ "Mismatch Found"); [simpl; lia|].
  destruct (String.eqb _ case_review); simpl; lia.
Qed.

Lemma tally_total rs : forall acc,
  total (fold_left count_result rs acc) <= total acc + length rs.
Proof.
  induction rs as [|r rs IH]; intros acc; simpl; [lia|].
  specialize (IH (count_result acc r)).
  pose proof (count_result_total acc r). lia.
Qed.

End Tally.

(** X10.  The tally counts as errors the outcomes whose error text is not
    empty, and under each category the outcomes without such an error whose
    verdict carries the label of the corresponding [case]. *)
Theorem tally_counts (rs : list ProcessingResult) :
  errors (tally rs) = length (List.filter is_error_outcome rs) /\
  validated (tally rs)
  = length (List.filter (has_status "Receipt Validated") rs) /\
  mismatch (tally rs) = length (List.filter (has_status "Mismatch Found") rs) /\
  review (tally rs) = length (List.filter (has_status case_review) rs).
Proof.
  unfold tally. rewrite Tally.tally_from. cbn. repeat split.
Qed.

(** X11.  No outcome is counted twice: the four counts add up to at most the
    number of outcomes.  The chart shows positive values only, and they add up
    to the four counts. *)
Theorem chart_counts_each_outcome_at_most_once (rs : list ProcessingResult) :
  total (tally rs) <= length rs /\
  Forall (fun item => 0 < item_value item) (chartData rs) /\
  list_sum (List.map item_value (chartData rs)) = total (tally rs).
Proof.
  split; [exact (Tally.tally_total rs _)|].
  destruct rs as [|r rs]; [split; [constructor|reflexivity]|].
  unfold chartData, total.
  destruct (tally (r :: rs)) as [v m w e].
  cbn [validated mismatch review errors].
  destruct v, m, w, e; cbn; (split; [|lia]);
    repeat (constructor; [cbn; lia|]); constructor.
Qed.

(** ** More on the processing loop *)

Section LoopMore.

Context {World : Type}.
Variable toISOString : World -> string * World.
Variable getBase64FromUrl :
  string -> World -> (Thrown + (string * string)) * World.
Variable validateReceipt :
  string -> string -> StudentData -> World ->
  (Thrown + ValidationResponse) * World.

Local Abbreviation loop := (process_loop toISOString getBase64FromUrl validateReceipt).
Local Abbreviation attempt := (try_row getBase64FromUrl validateReceipt).
Local Abbreviation clock := (now_timestamp toISOString).

(** From the second record on, every list handed to [setResults] is the
    previous one with one more outcome. *)
Lemma loop_prefixes total rows :
  forall index (acc : list ProcessingResult) w st,
  0 < index -> results st = acc ->
  let run := loop total index rows acc w in
  let final := results (apply_events st (fst run)) in
  (exists new, final = (acc ++ new)%list /\ length new = length rows) /\
  published (fst run)
  = List.map (fun k => take k final) (seq (S (length acc)) (length rows)).
Proof.
  induction rows as [|row rows IH]; intros index acc w st Hi Hacc.
  - cbn. split; [|reflexivity]. exists []. now rewrite app_nil_r.
  - cbn zeta.
    rewrite (loop_continue toISOString getBase64FromUrl validateReceipt
               total index row rows acc w) by (now apply stops_later).
    cbn zeta. set (tried := attempt row w). set (ts := clock (snd tried)).
    set (acc' := (acc ++ [outcome_of row (fst tried) (fst ts)])%list).
    set (st' := apply_event (apply_event st (SetProgress (index + 1) total))
                  (SetResults acc')).
    destruct (IH (S index) acc' (snd ts) st') as ((new & Hres & Hlen) & Hpub);
      [lia|reflexivity|].
    cbn [fst snd].
    change (apply_events st (?a :: ?b :: ?l)) with (apply_events st' l).
    change (published (SetProgress ?c ?t :: SetResults ?r :: ?l))
      with (r :: published l).
    assert (Hacc' : length acc' = S (length acc))
      by (unfold acc'; rewrite length_app; simpl; lia).
    split.
    + exists (outcome_of row (fst tried) (fst ts) :: new). split.
      * rewrite Hres. unfold acc'. now rewrite <- app_assoc.
      * simpl. now rewrite Hlen.
    + rewrite Hpub, Hacc'. cbn [length seq List.map]. f_equal.
      rewrite Hres. symmetry. now apply take_app_length'.
Qed.

End LoopMore.

(** X12.  In a run that is not stopped at its first record the outcome list
    only grows by appending: the lists handed to [setResults] are, in order,
    the prefixes of the final list of every length from 0 to the number of
    records. *)
Theorem published_lists_grow_by_appending {World : Type}
    (toISOString : World -> string * World)
    (getBase64FromUrl : string -> World -> (Thrown + (string * string)) * World)
    (validateReceipt : string -> string -> StudentData -> World ->
                       (Thrown + ValidationResponse) * World)
    (st : AppState) (w : World) (row : CsvRow) (rows : list CsvRow) :
  processedData st = row :: rows ->
  first_is_critical getBase64FromUrl validateReceipt row w = false ->
  let run := handleProcessData toISOString getBase64FromUrl validateReceipt st w in
  let final := results (apply_events st (fst run)) in
  length final = S (length rows) /\
  published (fst run)
  = List.map (fun k => take k final) (seq 0 (S (S (length rows)))).
Proof.
  intros Hdata Hcrit. cbn zeta. unfold handleProcessData. rewrite Hdata.
  assert (Hstop : stops 0
                    (fst (try_row getBase64FromUrl validateReceipt row w))
                  = false).
  { unfold first_is_critical in Hcrit. unfold stops, is_critical.
    destruct (fst (try_row getBase64FromUrl validateReceipt row w));
      [exact Hcrit|reflexivity]. }
  rewrite (loop_continue toISOString getBase64FromUrl validateReceipt
             (length (row :: rows)) 0 row rows [] w Hstop).
  cbn zeta.
  set (tried := try_row getBase64FromUrl validateReceipt row w).
  set (ts := now_timestamp toISOString (snd tried)).
  set (first := outcome_of row (fst tried) (fst ts)).
  set (total := length (row :: rows)).
  set (rest := process_loop toISOString getBase64FromUrl validateReceipt
                 total 1 rows ([] ++ [first]) (snd ts)).
  set (st' := apply_events st
                [SetIsLoading true; SetError None; SetResults [];
                 SetProgress 0 total; SetProgress (0 + 1) total;
                 SetResults ([] ++ [first])]).
  destruct (loop_prefixes toISOString getBase64FromUrl validateReceipt
              total rows 1 ([] ++ [first])%list (snd ts) st')
    as ((new & Hres & Hlen) & Hpub); [lia|reflexivity|].
  fold rest in Hres, Hpub.
  cbn [fst snd].
  change (apply_events st (?a :: ?b :: ?c :: ?d :: ?e :: ?f :: ?l))
    with (apply_events st' l).
  change (published (?a :: ?b :: SetResults ?r0 :: ?d :: ?e
                       :: SetResults ?r1 :: ?l))
    with (r0 :: r1 :: published l).
  rewrite Hpub, Hres. cbn [app length]. split; [now rewrite Hlen|].
  cbn [seq List.map take]. reflexivity.
Qed.

(** X12, at a concrete input. *)
Lemma published_lists_grow_by_appending_witness :
  published (fst (Demo.run rows_second_rejected))
  = List.map
      (fun k => take k (results (apply_events (Demo.state rows_second_rejected)
                                   (fst (Demo.run rows_second_rejected)))))
      [0; 1; 2; 3].
Proof.
  destruct (published_lists_grow_by_appending Demo.toISOString
              Demo.getBase64FromUrl Demo.validateReceipt
              (Demo.state rows_second_rejected) 0
              (Demo.record "Ann") [Demo.record "Bob"; Demo.record "Cy"]
              eq_refl eq_refl) as [_ H].
  exact H.
Defined.

(** X13.  A record whose proof-image address is absent, empty or blank fails
    with the missing-address message before any collaborator is called: the
    world is left as it was.  The message does not carry the credential
    marker, so such a record never stops the run, not even as first record. *)
Theorem blank_address_fails_without_any_call {World : Type}
    (getBase64FromUrl : string -> World -> (Thrown + (string * string)) * World)
    (validateReceipt : string -> string -> StudentData -> World ->
                       (Thrown + ValidationResponse) * World)
    (row : CsvRow) (w : World) :
  Str.all Char.is_ws (field_or_empty row "paymentScreenshotUrl") = true ->
  try_row getBase64FromUrl validateReceipt row w
  = (inl (JsError missing_url_message), w) /\
  first_is_critical getBase64FromUrl validateReceipt row w = false.
Proof.
  intros Hblank.
  assert (E : try_row getBase64FromUrl validateReceipt row w
              = (inl (JsError missing_url_message), w)).
  { unfold try_row. unfold field_or_empty in Hblank.
    destruct (row !! "paymentScreenshotUrl") as [url|]; [|reflexivity].
    simpl in Hblank. rewrite (StrFacts.all_ws_trim _ Hblank).
    now rewrite orb_true_r. }
  split; [exact E|]. unfold first_is_critical. rewrite E. reflexivity.
Qed.

(** X13, at a concrete input. *)
Lemma blank_address_fails_without_any_call_witness :
  try_row Demo.getBase64FromUrl Demo.validateReceipt
    {[ "name" := "Ann"; "paymentScreenshotUrl" := "  " ]} 7
  = (inl (JsError missing_url_message), 7).
Proof.
  destruct (blank_address_fails_without_any_call Demo.getBase64FromUrl
              Demo.validateReceipt
              {[ "name" := "Ann"; "paymentScreenshotUrl" := "  " ]} 7)
    as [E _].
  - vm_compute. reflexivity.
  - exact E.
Defined.

(** X14.  After a text that the parser refuses with a message, whatever the
    state was, the processed data are empty and [handleProcessData] only sets
    the no-data message: no record is attempted, nothing is published and the
    world is left as it was. *)
Theorem refused_text_leaves_nothing_to_process {World : Type}
    (toISOString : World -> string * World)
    (getBase64FromUrl : string -> World -> (Thrown + (string * string)) * World)
    (validateReceipt : string -> string -> StudentData -> World ->
                       (Thrown + ValidationResponse) * World)
    (type_error_message csv : string) (events : list Event)
    (st : AppState) (w : World) :
  parseAndValidateCsv type_error_message csv = inr events ->
  (forall data, parse_outcome csv <> Parsed data) ->
  is_Some (appError (apply_events st events)) /\
  processedData (apply_events st events) = [] /\
  handleProcessData toISOString getBase64FromUrl validateReceipt
    (apply_events st events) w
  = ([SetError (Some no_data_message)], w).
Proof.
  intros Hparse Hrefused. unfold parseAndValidateCsv in Hparse.
  destruct (parse_outcome csv) as [| |m| |data] eqn:Hout;
    try discriminate; try (now destruct (Hrefused data));
    injection Hparse as <-; cbn; repeat split; eauto.
Qed.

(** X14, at a concrete input. *)
Lemma refused_text_leaves_nothing_to_process_witness :
  handleProcessData Demo.toISOString Demo.getBase64FromUrl Demo.validateReceipt
    (apply_events (Demo.state rows_first_rejected)
       [SetError (Some empty_input_message); SetProcessedData []]) 0
  = ([SetError (Some no_data_message)], 0).
Proof.
  destruct (refused_text_leaves_nothing_to_process Demo.toISOString
              Demo.getBase64FromUrl Demo.validateReceipt "" "name,amount"
              [SetError (Some empty_input_message); SetProcessedData []]
              (Demo.state rows_first_rejected) 0) as (_ & _ & H).
  - reflexivity.
  - intros data H. vm_compute in H. discriminate.
  - exact H.
Defined.

(** ** The fetch handler *)

Module FetchFacts.

Lemma parsed_nonempty csv data : parse_outcome csv = Parsed data -> data <> [].
Proof.
  intros Hout.
  assert (Hlen : 2 <= length (csv_lines csv))
    by (apply Schema.outcome_needs_two_lines; now rewrite Hout).
  destruct (Parser.parse_outcome_long csv Hlen) as (r & rs & _ & Heq).
  rewrite Hout in Heq.
  destruct (filter_throwing _ requiredColumns) as [[|m ms]|];
    try discriminate.
  injection Heq as ->. discriminate.
Qed.

End FetchFacts.

(** X15.  A fetch with a non-empty address switches the fetching flag on
    first and off last, whatever happens in between, and always clears the
    results.  It ends in one of two ways: either no error is set and the
    processed data are the non-empty records of a text that was fetched with
    an ok status and accepted by the parser; or an error is set and the
    processed data are empty. *)
Theorem fetch_leaves_data_or_error {World : Type}
    (fetch : string -> World -> (Thrown + Response) * World)
    (type_error_message sheetUrl : string) (w : World) (st : AppState) :
  Str.truthy sheetUrl = true ->
  let run := handleFetchData fetch type_error_message sheetUrl w in
  let final := apply_events st (app_events (fst run)) in
  head (fst run) = Some (SetIsFetchingSheet true) /\
  last (fst run) = Some (SetIsFetchingSheet false) /\
  results final = [] /\
  ((appError final = None /\ processedData final <> [] /\
    exists response text,
      fst (fetch sheetUrl w) = inr response /\
      resp_ok response = true /\
      resp_text response = inr text /\
      parse_outcome text = Parsed (processedData final)) \/
   (is_Some (appError final) /\ processedData final = [])).
Proof.
  intros Hurl. cbn zeta. unfold handleFetchData, fetch_try. rewrite Hurl.
  cbn [negb].
  destruct (fetch sheetUrl w) as [[err|response] w1] eqn:Hfetch.
  { cbn. repeat split. right. split; eauto. }
  destruct (resp_ok response) eqn:Hok; cbn [negb].
  2:{ cbn. repeat split. right. split; eauto. }
  destruct (resp_text response) as [err|text] eqn:Htext.
  { cbn. repeat split. right. split; eauto. }
  unfold parseAndValidateCsv.
  destruct (parse_outcome text) as [| |m| |data] eqn:Hout; cbn;
    repeat split; try (right; split; eauto; fail).
  left. split; [reflexivity|]. split.
  - exact (FetchFacts.parsed_nonempty _ _ Hout).
  - exists response, text. repeat split; assumption.
Qed.

(** X15, at a concrete input. *)
Lemma fetch_leaves_data_or_error_witness :
  results
    (apply_events (Demo.state rows_first_rejected)
       (app_events
          (fst (handleFetchData
                  (fun (_ : string) (w : nat) =>
                     (inr {| resp_ok := false; resp_status := 404;
                             resp_text := inr "" |}, w))
                  "" "https://example.org/sheet.csv" 0))))
  = [].
Proof.
  destruct (fetch_leaves_data_or_error
              (fun (_ : string) (w : nat) =>
                 (inr {| resp_ok := false; resp_status := 404;
                         resp_text := inr "" |}, w))
              "" "https://example.org/sheet.csv" 0
              (Demo.state rows_first_rejected) eq_refl) as (_ & _ & H & _).
  exact H.
Defined.

(** ** The stopping test and the time stamp *)

Module TextFacts.

Lemma app_cons c (s t : string) : String c s +:+ t = String c (s +:+ t).
Proof. reflexivity. Qed.

Lemma app_nil (t : string) : "" +:+ t = t.
Proof. reflexivity. Qed.

Lemma prefix_spec needle hay :
  String.prefix needle hay = true <-> exists post, hay = needle +:+ post.
Proof.
  revert hay. induction needle as [|c needle IH]; intros hay.
  - split; [intros _; now exists hay|intros _; now destruct hay].
  - destruct hay as [|d hay]; simpl.
    + split; [discriminate|intros [post H]; discriminate].
    + destruct (ascii_dec c d) as [->|Hne].
      * rewrite IH. split; intros [post H]; exists post;
          rewrite app_cons in *; congruence.
      * split; [discriminate|intros [post H]; rewrite app_cons in H;
                             congruence].
Qed.

(** [includes] is the test for a substring. *)
Lemma includes_spec needle hay :
  Str.includes needle hay = true <->
  exists pre post, hay = pre +:+ needle +:+ post.
Proof.
  induction hay as [|d hay IH].
  - cbn [Str.includes]. rewrite orb_false_r, prefix_spec. split.
    + intros [post H]. now exists "", post.
    + intros (pre & post & H). destruct pre as [|c pre].
      * now exists post.
      * rewrite app_cons in H. discriminate.
  - cbn [Str.includes]. rewrite orb_true_iff, IH, prefix_spec. split.
    + intros [[post H]|(pre & post & H)].
      * now exists "", post.
      * exists (String d pre), post. now rewrite app_cons, H.
    + intros (pre & post & H). destruct pre as [|c pre].
      * left. now exists post.
      * right. exists pre, post. rewrite app_cons in H. congruence.
Qed.

Lemma substring_0_app a b :
  substring 0 (String.length a) (a +:+ b) = a.
Proof.
  induction a as [|c a IH].
  - rewrite app_nil. now destruct b.
  - rewrite app_cons. cbn [String.length substring]. now rewrite IH.
Qed.

Lemma replace_first_app c d pre post :
  Str.any (fun x => Ascii.eqb x c) pre = false ->
  Str.replace_first c d (pre +:+ String c post) = pre +:+ String d post.
Proof.
  induction pre as [|x pre IH]; intros H.
  - rewrite !app_nil. cbn [Str.replace_first]. now rewrite Ascii.eqb_refl.
  - cbn [Str.any] in H. apply orb_false_iff in H as [Hx Hpre].
    rewrite !app_cons. cbn [Str.replace_first]. now rewrite Hx, (IH Hpre).
Qed.

Lemma length_app s t :
  String.length (s +:+ t) = String.length s + String.length t.
Proof.
  induction s as [|c s IH]; [reflexivity|].
  rewrite app_cons. cbn [String.length]. now rewrite IH.
Qed.

Lemma app_assoc (s t u : string) : (s +:+ t) +:+ u = s +:+ (t +:+ u).
Proof.
  induction s as [|c s IH]; [reflexivity|]. rewrite !app_cons. now rewrite IH.
Qed.

End TextFacts.

(** The test of the [catch] block is a test of the index and of a
    substring. *)
Lemma is_critical_spec (index : nat) (message : string) :
  is_critical index message = true <->
  index = 0 /\
  exists pre post, message = pre +:+ "Invalid API Key" +:+ post.
Proof.
  unfold is_critical.
  rewrite andb_true_iff, Nat.eqb_eq, TextFacts.includes_spec. reflexivity.
Qed.

(** X16.  [handleProcessData] stops the run exactly when the attempt on the
    record at index 0 throws and the message has [Invalid API Key] as a
    substring, with this very spelling: then the error banner is set, one
    outcome is left and the world is the one left by record 0.  In every
    other case, whatever the later records throw, no banner is set, and the
    outcomes and the world are those of all the records attempted in turn. *)
Theorem run_stops_iff_first_failure_is_marked {World : Type}
    (toISOString : World -> string * World)
    (getBase64FromUrl : string -> World -> (Thrown + (string * string)) * World)
    (validateReceipt : string -> string -> StudentData -> World ->
                       (Thrown + ValidationResponse) * World)
    (st : AppState) (w : World) (row : CsvRow) (rows : list CsvRow) :
  processedData st = row :: rows ->
  let first := try_row getBase64FromUrl validateReceipt row w in
  let run := handleProcessData toISOString getBase64FromUrl validateReceipt st w in
  let final := apply_events st (fst run) in
  let reference :=
    outcomes_in_order toISOString getBase64FromUrl validateReceipt
      (row :: rows) w in
  (is_Some (appError final) <->
   exists err pre post,
     fst first = inl err /\
     errorMessage_of err = pre +:+ "Invalid API Key" +:+ post) /\
  (is_Some (appError final) ->
   length (results final) = 1 /\
   snd run = snd (now_timestamp toISOString (snd first))) /\
  (appError final = None ->
   results final = fst reference /\ snd run = snd reference).
Proof.
  intros Hdata. cbn zeta.
  destruct (stops 0 (fst (try_row getBase64FromUrl validateReceipt row w)))
    eqn:Hstop.
  - destruct (handle_stops toISOString getBase64FromUrl validateReceipt
                st w row rows Hdata Hstop)
      as (err & Herr & Hcrit & Hres & _ & _ & _ & Hban & Hw).
    apply is_critical_spec in Hcrit as (_ & pre & post & Hmsg).
    split; [|split].
    + split; [intros _; now exists err, pre, post|].
      intros _. rewrite Hban. eauto.
    + intros _. split; [now rewrite Hres|exact Hw].
    + intros Hnone. rewrite Hban in Hnone. discriminate.
  - destruct (handle_goes_on toISOString getBase64FromUrl validateReceipt
                st w row rows Hdata Hstop)
      as (Hres & Hw & Herr & _ & _).
    split; [|split].
    + split.
      * intros [b Hb]. rewrite Herr in Hb. discriminate.
      * intros (err & pre & post & Hfirst & Hmsg). exfalso.
        rewrite Hfirst in Hstop. cbn [stops] in Hstop.
        assert (Hc : is_critical 0 (errorMessage_of err) = true)
          by (apply is_critical_spec; split; [reflexivity|now exists pre, post]).
        rewrite Hc in Hstop. discriminate.
    + intros [b Hb]. rewrite Herr in Hb. discriminate.
    + intros _. split; assumption.
Qed.

(** X16, at a concrete input. *)
Lemma run_stops_iff_first_failure_is_marked_witness :
  (is_Some (appError (apply_events (Demo.state rows_first_rejected)
                        (fst (Demo.run rows_first_rejected)))) <->
   exists err pre post,
     fst (try_row Demo.getBase64FromUrl Demo.validateReceipt
            (Demo.record "Bob") 0) = inl err /\
     errorMessage_of err = pre +:+ "Invalid API Key" +:+ post) /\
  snd (Demo.run rows_second_rejected) = 3.
Proof.
  split.
  - exact (proj1 (run_stops_iff_first_failure_is_marked Demo.toISOString
                    Demo.getBase64FromUrl Demo.validateReceipt
                    (Demo.state rows_first_rejected) 0 (Demo.record "Bob")
                    [Demo.record "Ann"; Demo.record "Cy"] eq_refl)).
  - destruct (run_stops_iff_first_failure_is_marked Demo.toISOString
                Demo.getBase64FromUrl Demo.validateReceipt
                (Demo.state rows_second_rejected) 0 (Demo.record "Ann")
                [Demo.record "Bob"; Demo.record "Cy"] eq_refl) as (_ & _ & H).
    destruct (H eq_refl) as [_ Hw]. exact Hw.
Defined.

(** X17.  When the clock gives a text made of a date of ten characters
    without [T], a [T], a time of eight characters and anything after it, as
    ISO 8601 texts of four-digit years are, the time stamp is the date, a
    blank and the time; and the clock has been read once. *)
Theorem timestamp_is_date_blank_time {World : Type}
    (toISOString : World -> string * World) (w : World)
    (date time rest : string) :
  fst (toISOString w) = date +:+ "T" +:+ time +:+ rest ->
  Str.any (fun x => Ascii.eqb x "T") date = false ->
  String.length date = 10 ->
  String.length time = 8 ->
  now_timestamp toISOString w = (date +:+ " " +:+ time, snd (toISOString w)).
Proof.
  intros Hiso Hdate Hd Ht. unfold now_timestamp.
  destruct (toISOString w) as [iso w']. cbn [fst snd] in *. subst iso.
  f_equal.
  change (date +:+ "T" +:+ time +:+ rest)
    with (date +:+ String "T" (time +:+ rest)).
  rewrite (TextFacts.replace_first_app _ " "%char _ _ Hdate).
  change (date +:+ String " " (time +:+ rest))
    with (date +:+ (" " +:+ time) +:+ rest).
  rewrite <- !TextFacts.app_assoc.
  replace 19 with (String.length ((date +:+ " ") +:+ time)).
  - apply TextFacts.substring_0_app.
  - rewrite !TextFacts.length_app, Hd, Ht. reflexivity.
Qed.

(** X17, at a concrete input. *)
Lemma timestamp_is_date_blank_time_witness :
  now_timestamp Demo.toISOString 0 = ("2024-05-01 10:20:30", 1).
Proof.
  apply (timestamp_is_date_blank_time Demo.toISOString 0
           "2024-05-01" "10:20:30" ".000Z"); reflexivity.
Defined.

(** ** The two export tables *)

Module Tables.

Lemma escape_from odd s :
  even_quote_runs_from odd (escape_quotes s) = negb odd.
Proof.
  revert odd. induction s as [|c s IH]; intros odd; [reflexivity|].
  cbn [escape_quotes]. destruct (Char.is_quote c) eqn:Hc.
  - cbn [even_quote_runs_from]. change (Char.is_quote Char.quote) with true.
    cbn iota. rewrite IH. now destruct odd.
  - cbn [even_quote_runs_from]. rewrite Hc, IH. now destruct odd.
Qed.

Lemma escape_any p s :
  p Char.quote = false ->
  Str.any p (escape_quotes s) = Str.any p s.
Proof.
  intros Hq. induction s as [|c s IH]; [reflexivity|].
  cbn [escape_quotes]. destruct (Char.is_quote c) eqn:Hc.
  - assert (c = Char.quote) as -> by (revert Hc; each_ascii c).
    cbn [Str.any]. now rewrite Hq, IH.
  - cbn [Str.any]. now rewrite IH.
Qed.

Lemma tab_not_quote : is_tab Char.quote = false.
Proof. reflexivity. Qed.

Lemma any_quoted p s :
  p Char.quote = false ->
  Str.any p (Str.dq +:+ escape_quotes s +:+ Str.dq) = Str.any p s.
Proof.
  intros Hq. rewrite !SplitFacts.any_app, (escape_any p s Hq).
  change (Str.any p Str.dq) with (p Char.quote || false).
  rewrite Hq. cbn [orb]. apply orb_false_r.
Qed.

End Tables.

(** X18.  Escaping doubles every quote character and touches nothing else:
    the escaped text has twice as many quote characters, the same text once
    the quote characters are taken away, and only runs of quote characters of
    even length. *)
Theorem escaping_doubles_the_quotes (s : string) :
  Str.count Char.is_quote (escape_quotes s) = 2 * Str.count Char.is_quote s /\
  Str.remove Char.is_quote (escape_quotes s) = Str.remove Char.is_quote s /\
  even_quote_runs (escape_quotes s) = true.
Proof.
  split; [|split; [|exact (Tables.escape_from false s)]].
  - induction s as [|c s IH]; [reflexivity|].
    cbn [escape_quotes Str.count]. destruct (Char.is_quote c) eqn:Hc.
    + cbn [Str.count]. change (Char.is_quote Char.quote) with true.
      cbn iota. lia.
    + cbn [Str.count]. rewrite Hc. lia.
  - induction s as [|c s IH]; [reflexivity|].
    cbn [escape_quotes Str.remove]. destruct (Char.is_quote c) eqn:Hc.
    + cbn [Str.remove]. change (Char.is_quote Char.quote) with true.
      cbn iota. exact IH.
    + cbn [Str.remove]. now rewrite Hc, IH.
Qed.

(** X19.  When no line of the table holds a line feed, the text copied to the
    clipboard splits at the line feeds into the header line followed by one
    line per outcome, in the order of the outcomes. *)
Theorem clipboard_text_has_one_line_per_outcome (rs : list ProcessingResult)
    (text : string) :
  copyResultsForSheet rs = Some text ->
  Forall (fun r => Str.any Char.is_newline (compact_row r) = false) rs ->
  Str.split Char.is_newline text
  = ("Validation Status" +:+ tab +:+ "Observations" +:+ tab
     +:+ "Last Validated") :: List.map compact_row rs.
Proof.
  intros Hcopy Hclean. destruct rs as [|r rs]; [discriminate|].
  injection Hcopy as <-.
  change (Str.split Char.is_newline
            (Str.join (String Char.newline "")
               (Str.join tab compact_headers :: List.map compact_row (r :: rs)))
          = Str.join tab compact_headers :: List.map compact_row (r :: rs)).
  apply (SplitFacts.split_join Char.is_newline Char.newline);
    [reflexivity|discriminate|].
  constructor; [reflexivity|].
  rewrite List.Forall_map. exact Hclean.
Qed.

(** X19, at a concrete input. *)
Lemma clipboard_text_has_one_line_per_outcome_witness :
  length (Str.split Char.is_newline
            (default "" (copyResultsForSheet [outcome_ann; outcome_bob])))
  = 3.
Proof.
  rewrite (clipboard_text_has_one_line_per_outcome [outcome_ann; outcome_bob]
             (default "" (copyResultsForSheet [outcome_ann; outcome_bob])));
    [reflexivity|reflexivity|].
  repeat constructor.
Defined.

(** X20.  When neither the status, nor the observations, nor the time stamp of
    an outcome holds a tab, its line splits at the tabs into exactly three
    cells: the status, the escaped observations between two quote characters,
    and the time stamp. *)
Theorem clipboard_line_has_three_cells (r : ProcessingResult) :
  Str.any is_tab (compact_status r) = false ->
  Str.any is_tab (observations_text r) = false ->
  Str.any is_tab (timestamp r) = false ->
  Str.split is_tab (compact_row r)
  = [compact_status r;
     Str.dq +:+ escape_quotes (observations_text r) +:+ Str.dq;
     timestamp r].
Proof.
  intros Hs Ho Ht. unfold compact_row, compact_cells.
  apply (SplitFacts.split_join is_tab "009"%char);
    [reflexivity|discriminate|].
  repeat constructor; [exact Hs| |exact Ht].
  now rewrite (Tables.any_quoted is_tab _ Tables.tab_not_quote).
Qed.

(** X20, at a concrete input. *)
Lemma clipboard_line_has_three_cells_witness :
  length (Str.split is_tab (compact_row outcome_bob)) = 3.
Proof.
  rewrite (clipboard_line_has_three_cells outcome_bob);
    reflexivity.
Defined.

(** X21.  The status of the clipboard table is never empty, and it is the
    status of the detailed report except where the report leaves the status
    empty (no verdict category and no error text), where the clipboard table
    says [Processing Error]. *)
Theorem clipboard_status_follows_report_status (r : ProcessingResult) :
  Str.truthy (compact_status r) = true /\
  compact_status r
  = if Str.is_empty (full_status r) then "Processing Error"
    else full_status r.
Proof.
  unfold compact_status, full_status, or_else.
  destruct (validation r) as [v|]; cbn [option_map].
  - destruct (Validation_Status v) as [|c s]; cbn.
    + split; [reflexivity|]. now destruct (Str.truthy (default "" (error r))).
    + split; reflexivity.
  - destruct (Str.truthy (default "" (error r))); split; reflexivity.
Qed.

(** X22.  In the detailed report of outcomes whose records come from an
    accepted text, only the [User ID] cell can be undefined: every other cell
    of every row is a text or a boolean. *)
Theorem report_cells_are_defined (csv : string) (data : list CsvRow)
    (r : ProcessingResult) (name : string) (cell : Cell) :
  parse_outcome csv = Parsed data ->
  originalData r ∈ data ->
  (name, cell) ∈ sheet_row r ->
  name <> "User ID" ->
  cell <> CellUndefined.
Proof.
  intros Hout Hrow Hin Hname.
  destruct (Schema.accepted_spec csv data Hout) as (_ & _ & _ & Hreq).
  assert (Hcell : forall key, key ∈ requiredColumns ->
                              original_cell r key <> CellUndefined).
  { intros key Hkey. unfold original_cell.
    destruct (Hreq _ key Hrow Hkey) as [s ->]. discriminate. }
  unfold sheet_row in Hin.
  repeat (apply elem_of_cons in Hin as [Hin|Hin];
          [injection Hin as -> ->;
           first [congruence
                 | apply Hcell; unfold requiredColumns;
                   repeat (first [left; reflexivity|right])
                 | discriminate
                 | unfold extracted_flag; now destruct (validation r)]|]).
  now apply elem_of_nil in Hin.
Qed.

(** X22, at a concrete input. *)
Lemma report_cells_are_defined_witness :
  CellText "u1" <> CellUndefined.
Proof.
  apply (report_cells_are_defined csv_complete
           (parse_data (csv_lines csv_complete))
           {| originalData :=
                {[ "name" := "Ann"; "amount" := "100"; "utr" := "u1";
                   "paymentDate" := "2024-04-30"; "campusName" := "North";
                   "paymentScreenshotUrl" := "https://example.org/p.png" ]};
              validation := None; error := Some "boom";
              timestamp := "2024-05-01 10:20:30" |}
           "UTR" (CellText "u1")).
  - vm_compute. reflexivity.
  - apply list_elem_of_lookup. exists 0. vm_compute. reflexivity.
  - apply list_elem_of_lookup. exists 5. vm_compute. reflexivity.
  - discriminate.
Defined.
